(** * docker-container-metrics: sender and collector

    A shallow embedding of [sender/sender.py] (sampling, filtering and
    aggregation of per-container docker statistics) and of
    [collector/collector.py] (the ingestion endpoint and the InfluxDB
    writer), followed by the properties proved about them.

    Conventions of the embedding:
    - Python exceptions are values of [exn]; a call that may raise returns
      [result A], threaded with stdpp's monadic notation.
    - Python dictionaries are stdpp finite maps ([gmap]); iteration over a
      dictionary follows [map_to_list].
    - JSON documents of a known shape (the daemon's statistics, the records
      of a payload) are records: every key the scripts read is present.
    - Python [int]s are [Z]. Python [float]s are an abstract type [F] with
      the operations the scripts use (class [PyFloat]); the order laws some
      proofs need are the class [PyFloatOrder]. Exact rationals and IEEE
      binary64 numbers are instances.
    - In-place mutation of a dictionary is explicit state passing: the
      function returns the dictionary after its updates.
    - What the scripts get from outside (the clock, the stats streams, the
      timestamp parser, the HTTP client, the JSON decoder, the store) is an
      argument of the function that uses it. *)

From Stdlib Require Import ZArith QArith Floats Ascii String Lia.
From stdpp Require Import base option list strings gmap.

Close Scope Q_scope.
Close Scope float_scope.
Open Scope string_scope.
Open Scope list_scope.
Open Scope Z_scope.

(** ** Python exceptions and fallible computations *)

Inductive exn : Type :=
  | TypeError (msg : string)
  | IndexError (msg : string)
  | KeyError (key : string)
  | NameError (name : string)
  | ValueError (msg : string)
  | HTTPError
  | HTTPBadRequest (title description : string)
  | InfluxDBClientError (msg : string).

Inductive result (A : Type) : Type :=
  | Ok (a : A)
  | Raise (e : exn).
Arguments Ok {A} a.
Arguments Raise {A} e.

Definition rbind {A B : Type} (c : result A) (k : A → result B) : result B :=
  match c with
  | Ok a => k a
  | Raise e => Raise e
  end.

#[global] Instance result_ret : MRet result := @Ok.
#[global] Instance result_bind : MBind result := fun A B k c => rbind c k.

Definition raises {A : Type} (c : result A) : bool :=
  match c with Ok _ => false | Raise _ => true end.

(** ** Python string methods used by the scripts *)

(** [s.startswith(p)] *)
Fixpoint startswith (p s : string) : bool :=
  match p, s with
  | EmptyString, _ => true
  | String a p', String b s' => if Ascii.eqb a b then startswith p' s' else false
  | String _ _, EmptyString => false
  end.

(** [s.replace(old, '')] for a non-empty [old]: every non-overlapping
    occurrence of [old], scanning from the left, is dropped. [skip] counts
    the characters of a matched occurrence still to be dropped. *)
Fixpoint remove_from (old : string) (skip : nat) (s : string) : string :=
  match s with
  | EmptyString => EmptyString
  | String c s' =>
      match skip with
      | S n => remove_from old n s'
      | O =>
          if startswith old s
          then remove_from old (Nat.pred (String.length old)) s'
          else String c (remove_from old O s')
      end
  end.

Definition str_remove (old s : string) : string := remove_from old O s.

Fixpoint str_mem (c : ascii) (chars : string) : bool :=
  match chars with
  | EmptyString => false
  | String d chars' => if Ascii.eqb c d then true else str_mem c chars'
  end.

Fixpoint lstrip (chars s : string) : string :=
  match s with
  | EmptyString => EmptyString
  | String c s' => if str_mem c chars then lstrip chars s' else s
  end.

Definition str_rev (s : string) : string :=
  string_of_list_ascii (rev (list_ascii_of_string s)).

(** [s.strip(chars)] *)
Definition strip (chars s : string) : string :=
  str_rev (lstrip chars (str_rev (lstrip chars s))).

(** ** [uuid.UUID(hex, version=...)] and the builtin [int(s, 16)]

    Both belong to the Python standard library, not to the repository; they
    are transcribed here from CPython so that [match_on_uuid] can be
    evaluated. *)

Definition hex_value (c : ascii) : option Z :=
  let n := Z.of_nat (nat_of_ascii c) in
  if (48 <=? n) && (n <=? 57) then Some (n - 48)
  else if (97 <=? n) && (n <=? 102) then Some (n - 87)
  else if (65 <=? n) && (n <=? 70) then Some (n - 55)
  else None.

(** ASCII white space as [int] skips it: space, TAB, LF, VT, FF, CR. *)
Definition whitespace : string :=
  String " " (String "009" (String "010" (String "011" (String "012"
    (String "013" EmptyString))))).

Definition underscore : ascii := "_"%char.

(** The digit loop of [int]: hexadecimal digits with single underscores
    between them, then optional trailing white space up to the end of the
    string. [prev_us] says that the previous character was an underscore,
    [seen] that a digit was read, [acc] is the value so far. *)
Fixpoint int16_digits (prev_us seen : bool) (acc : Z) (s : string) : option Z :=
  match s with
  | EmptyString => if prev_us || negb seen then None else Some acc
  | String c s' =>
      match hex_value c with
      | Some d => int16_digits false true (16 * acc + d) s'
      | None =>
          if Ascii.eqb c underscore then
            if prev_us || negb seen then None
            else int16_digits true seen acc s'
          else if prev_us || negb seen then None
          else if String.eqb (lstrip whitespace s) ""
               then Some acc else None
      end
  end.

Definition int16_prefix (s : string) : string :=
  match s with
  | String "0" (String "x" s') | String "0" (String "X" s') =>
      match s' with
      | String "_" s'' => s''
      | _ => s'
      end
  | _ => s
  end.

(** [int(s, 16)] *)
Definition int16 (s : string) : result Z :=
  let s0 := lstrip whitespace s in
  let '(neg, s1) :=
    match s0 with
    | String "+" r => (false, r)
    | String "-" r => (true, r)
    | _ => (false, s0)
    end in
  match int16_digits false false 0 (int16_prefix s1) with
  | Some v => Ok (if neg : bool then - v else v)
  | None => Raise (ValueError "invalid literal for int() with base 16")
  end.

(** [uuid.UUID(hex, version=version)]; the value is the UUID's 128-bit
    integer. A given [version] is not compared with the version digits of
    [hex]: it overwrites them. *)
Definition UUID (hex : string) (version : option Z) : result Z :=
  let hex := str_remove "uuid:" (str_remove "urn:" hex) in
  let hex := str_remove "-" (strip "{}" hex) in
  if negb (Nat.eqb (String.length hex) 32)
  then Raise (ValueError "badly formed hexadecimal UUID string")
  else
    int ← int16 hex;
    if negb ((0 <=? int) && (int <? Z.shiftl 1 128))
    then Raise (ValueError "int is out of range (need a 128-bit value)")
    else
      match version with
      | None => Ok int
      | Some version =>
          if negb ((1 <=? version) && (version <=? 5))
          then Raise (ValueError "illegal version number")
          else
            let int := Z.land int (Z.lnot (Z.shiftl 0xc000 48)) in
            let int := Z.lor int (Z.shiftl 0x8000 48) in
            let int := Z.land int (Z.lnot (Z.shiftl 0xf000 64)) in
            let int := Z.lor int (Z.shiftl version 76) in
            Ok int
      end.

(** ** Numbers

    The scripts mix Python [int]s and [float]s. Integers are [Z]; a float
    type [F] provides the conversion Python applies to an [int] operand of
    a mixed operation and the operations used by the aggregation. *)

Class PyFloat (F : Type) : Type := {
  float_of_int : Z → F;
  fadd : F → F → F;
  fdiv : F → F → F;
  flt : F → F → bool;
}.

(** What the proofs about minima and maxima need of [<]: a strict order.
    IEEE comparison has both properties, also in the presence of NaN. *)
Class PyFloatOrder (F : Type) `{PyFloat F} : Prop := {
  flt_irrefl : ∀ x : F, flt x x = false;
  flt_trans : ∀ x y z : F, flt x y = true → flt y z = true → flt x z = true;
}.

(** [total_min_max] is called on floats (memory) and on integers (CPU
    load): the operations [+=], [<] and [>] it needs. *)
Class PyNum (A : Type) : Type := {
  num_add : A → A → A;
  num_lt : A → A → bool;
}.

#[global] Instance int_num : PyNum Z := {| num_add := Z.add; num_lt := Z.ltb |}.
#[global] Instance float_num {F : Type} `{PyFloat F} : PyNum F :=
  {| num_add := fadd; num_lt := flt |}.

(** A value stored in a record's field: [None], an [int] or a [float]. *)
Inductive pyval (F : Type) : Type :=
  | PyNone
  | PyInt (z : Z)
  | PyFloat_ (f : F).
Arguments PyNone {F}.
Arguments PyInt {F} z.
Arguments PyFloat_ {F} f.

Definition of_option {F : Type} (o : option F) : pyval F :=
  match o with Some f => PyFloat_ f | None => PyNone end.

(** [l[i]] on a Python list: a negative index counts from the end. *)
Definition subscript {A : Type} (l : list A) (i : Z) : result A :=
  let j := if i <? 0 then Z.of_nat (length l) + i else i in
  if j <? 0 then Raise (IndexError "list index out of range")
  else match l !! Z.to_nat j with
       | Some x => Ok x
       | None => Raise (IndexError "list index out of range")
       end.

(** ** Records exchanged between sender and collector

    [format_data] builds them, the collector receives them as JSON. [V] is
    the type of field values, which the collector never inspects. *)

Record Metric (V : Type) : Type := {
  measurement : string;
  timestamp : Z;
  tags : gmap string string;
  fields : gmap string V;
}.
Arguments measurement {V} _.
Arguments timestamp {V} _.
Arguments tags {V} _.
Arguments fields {V} _.

(** * sender/sender.py *)

(** What the docker daemon reports each second: the keys the sender keeps,
    and [blkio_stats] for those it drops. *)
Record CpuUsage : Type := { total_usage : Z }.
Record CpuStats : Type := { cpu_usage : CpuUsage; system_cpu_usage : Z }.
Record MemoryStats : Type := { usage : Z }.
Record Network : Type := {
  tx_bytes : Z; rx_bytes : Z;
  tx_packets : Z; rx_packets : Z;
  tx_errors : Z; rx_errors : Z;
  tx_dropped : Z; rx_dropped : Z;
}.

Record Stat : Type := {
  read : string;
  memory_stats : MemoryStats;
  cpu_stats : CpuStats;
  network : Network;
}.

Record AllStats : Type := {
  wanted : Stat;
  blkio_stats : list (string * Z);
}.

(** [machine_stats[container_id]]: the aliases and the collected series,
    [None] when collection failed. *)
Record MachineEntry : Type := {
  aliases : list string;
  stats : option (list Stat);
}.

Definition Matcher : Type := string → MachineEntry → result bool.

Definition match_all_but_sender : Matcher := fun name value =>
  if bool_decide ("sender" ∈ aliases value) then Ok false
  else Ok true.

Definition match_all : Matcher := fun name value => Ok true.

(** Only [ValueError] is caught around [uuid.UUID(name, version=1)]. *)
Definition match_on_uuid : Matcher := fun name value =>
  if bool_decide ("sender" ∈ aliases value) then Ok false
  else match UUID name (Some 1) with
       | Ok _ => Ok true
       | Raise (ValueError _) => Ok false
       | Raise e => Raise e
       end.

(** The module-level functions defined when the selection of
    [match_container_name] runs (lines 55 to 84). Reading any other name
    raises [NameError]. *)
Definition defined_functions : gmap string Matcher :=
  <["match_on_uuid" := match_on_uuid]>
    (<["match_all" := match_all]>
       (<["match_all_but_sender" := match_all_but_sender]> ∅)).

Definition global (name : string) : result Matcher :=
  match defined_functions !! name with
  | Some f => Ok f
  | None => Raise (NameError name)
  end.

(** Lines 86 to 92: the binding of [match_container_name] after the
    [if]/[elif] chain, for a value [match_type_name] of [MATCH_TYPE].
    [None] is the chain falling through, which leaves the name unbound. *)
Definition select_match_container_name (match_type_name : string)
  : result (option Matcher) :=
  if String.eqb match_type_name "ALL" then
    f ← global "match_all"; Ok (Some f)
  else if String.eqb match_type_name "UUID" then
    f ← global "match_on_uuid"; Ok (Some f)
  else if String.eqb match_type_name "NO_CADVISOR" then
    f ← global "match_all_but_cadvisor"; Ok (Some f)
  else Ok None.

(** A call of the global [match_container_name]. *)
Definition call_match (match_container_name : option Matcher)
  (name : string) (value : MachineEntry) : result bool :=
  match match_container_name with
  | Some f => f name value
  | None => Raise (NameError "match_container_name")
  end.

(** [stat > s_max] is [s_max < stat]. *)
Definition total_min_max {A : Type} `{PyNum A}
  (stat s_total : A) (s_min s_max : option A) : A * option A * option A :=
  let result_min := s_min in
  let result_max := s_max in
  let s_total := num_add s_total stat in
  let result_min :=
    match s_min with
    | None => Some stat
    | Some m => if num_lt stat m then Some stat else result_min
    end in
  let result_max :=
    match s_max with
    | None => Some stat
    | Some m => if num_lt m stat then Some stat else result_max
    end in
  (s_total, result_min, result_max).

(** One element of a stats stream: what reading and decoding the next
    document gives, and the value of [time.time()] once it is stored. *)
Record Tick : Type := {
  chunk : result AllStats;
  clock : Z;
}.

(** The object returned by [docker_client.stats(id)], with the value of
    [time.time()] when the process reading it starts. *)
Record StatsObj : Type := {
  started : Z;
  ticks : list Tick;
}.

Definition select_wanted (all_stats : AllStats) : Stat := wanted all_stats.

(** The [for] loop of [get_stats_from_daemon]; [Raise] is an exception
    escaping the loop, [Ok] the series when the loop ends or breaks. *)
Fixpoint collect_loop (stats_obj : list Tick) (collected_stats : list Stat)
  (interval end_time : Z) : result (list Stat) :=
  match stats_obj with
  | [] => Ok collected_stats
  | container_stat :: rest =>
      all_stats ← chunk container_stat;
      let stats := select_wanted all_stats in
      let collected_stats := collected_stats ++ [stats] in
      if (interval <=? Z.of_nat (length collected_stats))
         || (end_time <=? clock container_stat)
      then Ok collected_stats
      else collect_loop rest collected_stats interval end_time
  end.

Definition get_stats_from_daemon (stats_obj : StatsObj)
  (container_id : string) (container_aliases : list string)
  (machine_stats : gmap string MachineEntry) (interval : Z)
  : gmap string MachineEntry :=
  let end_time := started stats_obj + interval in
  let collected_stats :=
    match collect_loop (ticks stats_obj) [] interval end_time with
    | Ok l => Some l
    | Raise _ => None
    end in
  <[container_id := {| aliases := container_aliases;
                       stats := collected_stats |}]> machine_stats.

Record Container : Type := { Id : string; Names : list string }.

Record DockerClient : Type := {
  containers : list Container;
  client_stats : string → StatsObj;
}.

Definition format_data {V : Type} (measurement_name container : string)
  (timestamp : Z) (fields : gmap string V) : Metric V :=
  {| measurement := measurement_name;
     timestamp := timestamp;
     tags := {[ "container_name" := container ]};
     fields := fields |}.

Section Sender.
Context {F : Type} `{PyFloat F}.

(** [int(dateutil.parser.parse(s).strftime('%s'))]: the timestamp
    parser of the [dateutil] library, which may raise. *)
Variable epoch_seconds : string → result Z.

(** [requests.post(endpoint, data=json.dumps(data), ..., timeout=10)]
    followed by [raise_for_status()]. *)
Variable http_post : string → gmap string (list (Metric (pyval F))) → result unit.

(** [n / 1024.0] for an [int] n; the literal [1024.0] is the float of
    the integer 1024. *)
Definition kb (n : Z) : F := fdiv (float_of_int n) (float_of_int 1024).

(** The variables of the loop over [stats]. *)
Record Totals : Type := {
  total_memory : F;
  min_memory : option F;
  max_memory : option F;
  total_load : Z;
  min_load : option Z;
  max_load : option Z;
}.

(** [total_memory = 0] is an [int]; its first [+=] with a float converts
    it, which is done here at once. *)
Definition initial_totals : Totals :=
  {| total_memory := float_of_int 0; min_memory := None; max_memory := None;
     total_load := 0; min_load := None; max_load := None |}.

Definition totals_step (t : Totals) (stat : Stat) : Totals :=
  let memory := memory_stats stat in
  let memory_kb := kb (usage memory) in
  let '(total_memory', min_memory', max_memory') :=
    total_min_max memory_kb (total_memory t) (min_memory t) (max_memory t) in
  let cpu := cpu_stats stat in
  let cpu_load := total_usage (cpu_usage cpu) in
  let '(total_load', min_load', max_load') :=
    total_min_max cpu_load (total_load t) (min_load t) (max_load t) in
  {| total_memory := total_memory'; min_memory := min_memory';
     max_memory := max_memory';
     total_load := total_load'; min_load := min_load';
     max_load := max_load' |}.

Definition cpu_usage_fields (first last : Stat) : gmap string (pyval F) :=
  {[ "total" := PyInt (total_usage (cpu_usage (cpu_stats last))
                       - total_usage (cpu_usage (cpu_stats first))) ]}.

Definition memory_usage_fields (t : Totals) (stats_len : Z)
  : gmap string (pyval F) :=
  <["total" := PyFloat_ (total_memory t)]>
    (<["ave" := PyFloat_ (fdiv (total_memory t) (float_of_int stats_len))]>
       (<["max" := of_option (max_memory t)]>
          (<["min" := of_option (min_memory t)]> ∅))).

Definition network_usage_fields (first last : Stat) : gmap string (pyval F) :=
  let f := network first in
  let l := network last in
  <["tx_kb" := PyFloat_ (kb (tx_bytes l - tx_bytes f))]>
    (<["rx_kb" := PyFloat_ (kb (rx_bytes l - rx_bytes f))]>
       (<["tx_packets" := PyInt (tx_packets l - tx_packets f)]>
          (<["rx_packets" := PyInt (rx_packets l - rx_packets f)]>
             (<["tx_errors" := PyInt (tx_errors l - tx_errors f)]>
                (<["rx_errors" := PyInt (rx_errors l - rx_errors f)]>
                   (<["tx_dropped" := PyInt (tx_dropped l - tx_dropped f)]>
                      (<["rx_dropped" := PyInt (rx_dropped l - rx_dropped f)]>
                         ∅))))))).

(** The search for a matching alias (lines 168 to 172). *)
Fixpoint matching_alias (match_container_name : option Matcher)
  (value : MachineEntry) (names : list string) : result (option string) :=
  match names with
  | [] => Ok None
  | name :: rest =>
      b ← call_match match_container_name (str_remove "/" name) value;
      if b : bool then Ok (Some (str_remove "/" name))
      else matching_alias match_container_name value rest
  end.

(** [value['stats'][0]]: subscripting [None] is a [TypeError]. *)
Definition stats_subscript (value : MachineEntry) (i : Z) : result Stat :=
  match stats value with
  | None => Raise (TypeError "'NoneType' object is not subscriptable")
  | Some l => subscript l i
  end.

(** Lines 178 to 232 for a container that matched under
    [container_name]: the three records. *)
Definition container_records (container_name : string) (value : MachineEntry)
  : result (list (Metric (pyval F))) :=
  first_stat ← stats_subscript value 0;
  ts ← epoch_seconds (read first_stat);
  stats ← match stats value with
          | Some l => Ok l
          | None => Raise (TypeError "object of type 'NoneType' has no len()")
          end;
  let stats_len := Z.of_nat (length stats) in
  let t := foldl totals_step initial_totals stats in
  first ← subscript stats 0;
  last ← subscript stats (stats_len - 1);
  let system_cpu :=
    system_cpu_usage (cpu_stats last) - system_cpu_usage (cpu_stats first) in
  let cpu_usage := cpu_usage_fields first last in
  let memory_usage := memory_usage_fields t stats_len in
  let network_usage := network_usage_fields first last in
  Ok [format_data "cpu.usage" container_name ts cpu_usage;
      format_data "memory.usage" container_name ts memory_usage;
      format_data "network.usage" container_name ts network_usage].

(** One iteration of the loop over [machine_stats.items()]. *)
Definition aggregate_entry (match_container_name : option Matcher)
  (value : MachineEntry) (payload : gmap string (list (Metric (pyval F))))
  : result (gmap string (list (Metric (pyval F)))) :=
  container_name ← matching_alias match_container_name value (aliases value);
  match container_name with
  | None => Ok payload
  | Some container_name =>
      records ← container_records container_name value;
      Ok (<[container_name := records]> payload)
  end.

Fixpoint aggregate_loop (match_container_name : option Matcher)
  (items : list (string * MachineEntry))
  (payload : gmap string (list (Metric (pyval F))))
  : result (gmap string (list (Metric (pyval F)))) :=
  match items with
  | [] => Ok payload
  | (key, value) :: rest =>
      payload ← aggregate_entry match_container_name value payload;
      aggregate_loop match_container_name rest payload
  end.

(** The processes are started and joined one after the other, each
    storing its result in the shared [machine_stats]. *)
Definition run_processes (docker_client : DockerClient) (interval : Z)
  : gmap string MachineEntry :=
  foldl (fun machine_stats container =>
           get_stats_from_daemon
             (client_stats docker_client (Id container))
             (Id container) (Names container) machine_stats interval)
        ∅ (containers docker_client).

(** What a collection cycle does to the outside: the documents posted,
    and how the cycle ends. *)
Record Cycle : Type := {
  posted : list (string * gmap string (list (Metric (pyval F))));
  outcome : result unit;
}.

Definition send (endpoint : string)
  (data : gmap string (list (Metric (pyval F)))) : Cycle :=
  {| posted := [(endpoint, data)]; outcome := http_post endpoint data |}.

Definition get_dockerstats_metrics (match_container_name : option Matcher)
  (endpoint : string) (docker_client : DockerClient) : Cycle :=
  let interval := 60 in
  let machine_stats := run_processes docker_client interval in
  match aggregate_loop match_container_name (map_to_list machine_stats) ∅ with
  | Raise e => {| posted := []; outcome := Raise e |}
  | Ok payload => send endpoint payload
  end.

End Sender.

(** ** Two float types

    Exact rationals, and IEEE binary64 numbers as Python's [float] has
    them. [binary_normalize] rounds an integer to the nearest binary64
    value, ties to even, as the conversion of a Python [int] does. *)

#[global] Instance rational_float : PyFloat Q := {|
  float_of_int := inject_Z;
  fadd := Qplus;
  fdiv := Qdiv;
  flt := fun x y => negb (Qle_bool y x);
|}.

#[global] Instance binary64_float : PyFloat float := {|
  float_of_int := fun z => SF2Prim (binary_normalize 53 1024 z 0 false);
  fadd := PrimFloat.add;
  fdiv := PrimFloat.div;
  flt := PrimFloat.ltb;
|}.

(** * collector/collector.py *)

Section Collector.
(** [V] is the type of field values in a record, [S] the type of states
    of the InfluxDB store. *)
Context {V S : Type}.

(** [influx_client.write_points(points)]: the store after the write, or
    the exception the client raises. *)
Variable write_points : S → list (Metric V) → result S.

(** [metric['tags']['remote_ip'] = remote_ip] *)
Definition set_remote_ip (remote_ip : string) (metric : Metric V) : Metric V :=
  {| measurement := measurement metric;
     timestamp := timestamp metric;
     tags := <["remote_ip" := remote_ip]> (tags metric);
     fields := fields metric |}.

(** The state the writer works on: the entry, whose records are updated
    in place, the store, and the batches handed to [write_points] so
    far. *)
Record Writer : Type := {
  w_entry : gmap string (list (Metric V));
  w_store : S;
  w_issued : list (list (Metric V));
}.

(** The loop over [entry.keys()] inside the [try]. *)
Fixpoint write_loop (keys : list string) (remote_ip : string) (w : Writer)
  : Writer * result unit :=
  match keys with
  | [] => (w, Ok ())
  | container :: rest =>
      match w_entry w !! container with
      | None => (w, Raise (KeyError container))
      | Some metrics =>
          let metrics := set_remote_ip remote_ip <$> metrics in
          let entry := <[container := metrics]> (w_entry w) in
          let issued := w_issued w ++ [metrics] in
          match write_points (w_store w) metrics with
          | Raise e =>
              ({| w_entry := entry; w_store := w_store w; w_issued := issued |},
               Raise e)
          | Ok store =>
              write_loop rest remote_ip
                {| w_entry := entry; w_store := store; w_issued := issued |}
          end
      end
  end.

(** The outcome of a call of the writer: the state it leaves, what
    [logger.error] received, and the value returned (or an exception
    raised). *)
Record WriterRun : Type := {
  final : Writer;
  logged : list exn;
  returned : result bool;
}.

Definition _get_metadata_default (entry : gmap string (list (Metric V)))
  (remote_ip : string) (influx_client : S) (ignore_fail : bool) : WriterRun :=
  let w := {| w_entry := entry; w_store := influx_client; w_issued := [] |} in
  match write_loop (map_to_list entry).*1 remote_ip w with
  | (w', Ok _) => {| final := w'; logged := []; returned := Ok true |}
  | (w', Raise e) => {| final := w'; logged := [e]; returned := Ok ignore_fail |}
  end.

(** [StatHandler.process] of a handler built without [metadata_fun]:
    [influx_client] is the connection it opens, [_get_metadata] is
    called with [ignore_fail=False] and its value is dropped.
    ([logger.debug] prints nothing at the level [ERROR] set for the
    logger.) *)
Definition process (entry : gmap string (list (Metric V)))
  (remote_ip : string) (influx_client : S) : Writer * list exn * result unit :=
  let run := _get_metadata_default entry remote_ip influx_client false in
  (final run, logged run, _ ← returned run; Ok ()).
End Collector.

Section Endpoint.
(** [J] is the type of decoded JSON documents, [S] of states of the
    InfluxDB store. *)
Context {J S : Type}.

(** [json.loads(body.decode())] *)
Variable json_loads : string → result J.

Record Request : Type := {
  REMOTE_ADDR : string;
  stream : string;
}.

Record Response : Type := {
  status : string;
  headers : gmap string string;
  body : string;
}.

(** The collector process and its surroundings: the store, the handler
    processes started and not waited for (each with the arguments of
    [handler.process]), and the lines given to [logger.error]. *)
Record Server : Type := {
  store : S;
  processes : list (J * string);
  error_log : list string;
}.

Definition HTTP_200 : string := "200 OK".
Definition HTTP_400 : string := "400 Bad Request".

(** The status falcon answers with when a responder raises. *)
Definition error_status (e : exn) : option string :=
  match e with
  | HTTPBadRequest _ _ => Some HTTP_400
  | _ => None
  end.

(** [self.fmt({})], that is [json.dumps({}, indent=4, sort_keys=True)]. *)
Definition fmt_empty_object : string := "{}".

Definition on_post (srv : Server) (req : Request) (resp : Response)
  : Server * result Response :=
  let remote_ip := REMOTE_ADDR req in
  let body := stream req in
  if String.eqb body "" then
    ({| store := store srv; processes := processes srv;
        error_log := error_log srv
                     ++ ["Empty body provided when returning a command result."] |},
     Raise (HTTPBadRequest "Empty request body"
                           "A valid JSON document is required."))
  else
    match json_loads body with
    | Raise e => (srv, Raise e)
    | Ok entry =>
        ({| store := store srv;
            processes := processes srv ++ [(entry, remote_ip)];
            error_log := error_log srv |},
         Ok {| status := HTTP_200;
               headers := <["Content-Type" := "application/json"]> (headers resp);
               body := fmt_empty_object |})
    end.
End Endpoint.

(** * sender/sender.py: disk I/O and the cadvisor source *)

(** [d[key]] on a dictionary. *)
Definition getitem {A : Type} (d : gmap string A) (key : string) : result A :=
  match d !! key with
  | Some v => Ok v
  | None => Raise (KeyError key)
  end.

(** An entry of a disk I/O list: a device and its counters by name
    ([Sync], [Async], [Read], [Write], ...). *)
Record DiskEntry : Type := {
  major : Z;
  minor : Z;
  disk_stats : gmap string Z;
}.

(** The [for] loop of [process_diskio]. *)
Fixpoint diskio_loop (io_stats : list DiskEntry) (field : string) (total : Z)
  : result Z :=
  match io_stats with
  | [] => Ok total
  | entry :: rest =>
      v ← getitem (disk_stats entry) field;
      diskio_loop rest field (total + v)
  end.

(** [diskio] maps [io_service_bytes], [io_serviced] and the like to their
    lists of entries. *)
Definition process_diskio (diskio : gmap string (list DiskEntry))
  (field : string) : result Z :=
  let total := 0 in
  io_stats ← getitem diskio "io_service_bytes";
  diskio_loop io_stats field total.

(** What cadvisor reports for a container: the keys [get_cadvisor_metrics]
    reads. [memory] and [network] have the shape of the daemon's
    [memory_stats] and [network]. *)
Module Cadvisor.
Record Usage : Type := { total : Z }.
Record Cpu : Type := { usage : Usage; load_average : Z }.
Record Stat : Type := {
  timestamp : string;
  cpu : Cpu;
  memory : MemoryStats;
  network : Network;
}.
Record Entry : Type := {
  aliases : list string;
  stats : list Stat;
}.
End Cadvisor.

(** The same sample under the key names of the docker daemon: [read] for
    [timestamp], [memory_stats] for [memory], [cpu_stats.cpu_usage.total_usage]
    for [cpu.usage.total]. cadvisor reports no [system_cpu_usage]. *)
Definition docker_view (stat : Cadvisor.Stat) : Stat :=
  {| read := Cadvisor.timestamp stat;
     memory_stats := Cadvisor.memory stat;
     cpu_stats := {| cpu_usage := {| total_usage :=
                                       Cadvisor.total (Cadvisor.usage (Cadvisor.cpu stat)) |};
                     system_cpu_usage := 0 |};
     network := Cadvisor.network stat |}.

(** The [value] a filter is called with in [get_cadvisor_metrics]: the
    filters are written for both sources and read [value['aliases']]. *)
Definition filter_value (value : Cadvisor.Entry) : MachineEntry :=
  {| aliases := Cadvisor.aliases value;
     stats := Some (docker_view <$> Cadvisor.stats value) |}.

Section CadvisorSender.
Context {F : Type} `{PyFloat F}.
Variable epoch_seconds : string → result Z.
Variable http_post : string → gmap string (list (Metric (pyval F))) → result unit.

(** [requests.get(url)] followed by [r.json()]. *)
Variable http_get_json : string → result (gmap string Cadvisor.Entry).

(** Lines 246 and 247: the loop that adds up [total_cpu]. *)
Fixpoint total_cpu_loop (items : list (string * Cadvisor.Entry)) (total_cpu : Z)
  : result Z :=
  match items with
  | [] => Ok total_cpu
  | (key, value) :: rest =>
      last ← subscript (Cadvisor.stats value) (-1);
      first ← subscript (Cadvisor.stats value) 0;
      total_cpu_loop rest
        (total_cpu + (Cadvisor.total (Cadvisor.usage (Cadvisor.cpu last))
                      - Cadvisor.total (Cadvisor.usage (Cadvisor.cpu first))))
  end.

Definition cadvisor_totals_step (t : Totals) (stat : Cadvisor.Stat) : Totals :=
  let memory := Cadvisor.memory stat in
  let memory_kb := kb (usage memory) in
  let '(total_memory', min_memory', max_memory') :=
    total_min_max memory_kb (total_memory t) (min_memory t) (max_memory t) in
  let cpu := Cadvisor.cpu stat in
  let cpu_load := Cadvisor.load_average cpu in
  let '(total_load', min_load', max_load') :=
    total_min_max cpu_load (total_load t) (min_load t) (max_load t) in
  {| total_memory := total_memory'; min_memory := min_memory';
     max_memory := max_memory';
     total_load := total_load'; min_load := min_load';
     max_load := max_load' |}.

Definition cadvisor_cpu_fields (first last : Cadvisor.Stat)
  : gmap string (pyval F) :=
  {[ "total" := PyInt (Cadvisor.total (Cadvisor.usage (Cadvisor.cpu last))
                       - Cadvisor.total (Cadvisor.usage (Cadvisor.cpu first))) ]}.

Definition cadvisor_network_fields (first last : Cadvisor.Stat)
  : gmap string (pyval F) :=
  let f := Cadvisor.network first in
  let l := Cadvisor.network last in
  <["tx_kb" := PyFloat_ (kb (tx_bytes l - tx_bytes f))]>
    (<["rx_kb" := PyFloat_ (kb (rx_bytes l - rx_bytes f))]>
       (<["tx_packets" := PyInt (tx_packets l - tx_packets f)]>
          (<["rx_packets" := PyInt (rx_packets l - rx_packets f)]>
             (<["tx_errors" := PyInt (tx_errors l - tx_errors f)]>
                (<["rx_errors" := PyInt (rx_errors l - rx_errors f)]>
                   (<["tx_dropped" := PyInt (tx_dropped l - tx_dropped f)]>
                      (<["rx_dropped" := PyInt (rx_dropped l - rx_dropped f)]>
                         ∅))))))).

(** Lines 251 to 256: the alias is passed to the filter as it is. *)
Fixpoint cadvisor_matching_alias (match_container_name : option Matcher)
  (value : Cadvisor.Entry) (names : list string) : result (option string) :=
  match names with
  | [] => Ok None
  | name :: rest =>
      b ← call_match match_container_name name (filter_value value);
      if b : bool then Ok (Some name)
      else cadvisor_matching_alias match_container_name value rest
  end.

(** Lines 262 to 322 for a container that matched. *)
Definition cadvisor_records (container_name : string) (value : Cadvisor.Entry)
  : result (list (Metric (pyval F))) :=
  first_stat ← subscript (Cadvisor.stats value) 0;
  ts ← epoch_seconds (Cadvisor.timestamp first_stat);
  let stats := Cadvisor.stats value in
  let stats_len := Z.of_nat (length stats) in
  let t := foldl cadvisor_totals_step initial_totals stats in
  first ← subscript stats 0;
  last ← subscript stats (stats_len - 1);
  let cpu_usage := cadvisor_cpu_fields first last in
  let memory_usage := memory_usage_fields t stats_len in
  let network_usage := cadvisor_network_fields first last in
  Ok [format_data "cpu.usage" container_name ts cpu_usage;
      format_data "memory.usage" container_name ts memory_usage;
      format_data "network.usage" container_name ts network_usage].

Definition cadvisor_aggregate_entry (match_container_name : option Matcher)
  (value : Cadvisor.Entry) (payload : gmap string (list (Metric (pyval F))))
  : result (gmap string (list (Metric (pyval F)))) :=
  container_name ← cadvisor_matching_alias match_container_name value
                     (Cadvisor.aliases value);
  match container_name with
  | None => Ok payload
  | Some container_name =>
      records ← cadvisor_records container_name value;
      Ok (<[container_name := records]> payload)
  end.

Fixpoint cadvisor_aggregate_loop (match_container_name : option Matcher)
  (items : list (string * Cadvisor.Entry))
  (payload : gmap string (list (Metric (pyval F))))
  : result (gmap string (list (Metric (pyval F)))) :=
  match items with
  | [] => Ok payload
  | (key, value) :: rest =>
      payload ← cadvisor_aggregate_entry match_container_name value payload;
      cadvisor_aggregate_loop match_container_name rest payload
  end.

(** An exception before [send] leaves nothing posted. *)
Definition get_cadvisor_metrics (match_container_name : option Matcher)
  (endpoint cadvisor_base : string) : Cycle :=
  let aggregated :=
    r ← http_get_json (cadvisor_base ++ "/docker");
    let payload := ∅ in
    let total_cpu := 0 in
    total_cpu ← total_cpu_loop (map_to_list r) total_cpu;
    cadvisor_aggregate_loop match_container_name (map_to_list r) payload in
  match aggregated with
  | Raise e => {| posted := []; outcome := Raise e |}
  | Ok payload => send http_post endpoint payload
  end.

(** Lines 351 to 356: the source is cadvisor when its URL is known. *)
Definition run_sender (match_container_name : option Matcher)
  (endpoint : string) (cadvisor_base : option string)
  (docker_client : DockerClient) : Cycle :=
  match cadvisor_base with
  | Some cadvisor_base =>
      get_cadvisor_metrics match_container_name endpoint cadvisor_base
  | None =>
      get_dockerstats_metrics epoch_seconds http_post match_container_name
        endpoint docker_client
  end.
End CadvisorSender.

(** * Definitions used to state the properties *)

(** The claim's reading of a name that parses as a version-1 UUID string:
    [uuid.UUID(name)] accepts it and the version it carries is 1. *)
Definition parses_as_version1_uuid (name : string) : bool :=
  match UUID name None with
  | Ok int => Z.land (Z.shiftr int 76) 0xf =? 1
  | Raise _ => false
  end.

Definition uuid_v1_name : string := "f47ac10b-58cc-1ef1-b532-0242ac130003".
Definition uuid_v4_name : string := "f47ac10b-58cc-4372-a567-0e02b2c3d479".

(** One step of a running bound: the bound is replaced by a value that is
    strictly below it for [lt]. *)
Definition extremum_step {A : Type} (lt : A → A → bool)
  (bound : option A) (stat : A) : option A :=
  match bound with
  | None => Some stat
  | Some m => if lt stat m then Some stat else Some m
  end.

(** The memory reading of a sample, in kilobytes. *)
Definition memory_kb {F : Type} `{PyFloat F} (stat : Stat) : F :=
  kb (usage (memory_stats stat)).


(** The difference of a counter between the last and the first sample. *)
Definition delta (counter : Network → Z) (first last_stat : Stat) : Z :=
  counter (network last_stat) - counter (network first).

(** The loop a caller runs with [total_min_max], from a total [zero] and
    no bound. *)
Definition total_min_max_over {A : Type} `{PyNum A} (zero : A) (stats : list A)
  : A * option A * option A :=
  foldl (λ acc stat, total_min_max stat acc.1.1 acc.1.2 acc.2)
        (zero, None, None) stats.

(** The counter [field] of an entry, 0 when the entry has none, and the
    entries that have it. *)
Definition field_value (field : string) (entry : DiskEntry) : Z :=
  default 0 (disk_stats entry !! field).

Definition has_field (field : string) (entry : DiskEntry) : Prop :=
  is_Some (disk_stats entry !! field).

(** The name under which the loop of [get_dockerstats_metrics] files a
    container, when one of its aliases matches. *)
Definition matched_name (match_container_name : option Matcher)
  (value : MachineEntry) : option string :=
  match matching_alias match_container_name value (aliases value) with
  | Ok (Some name) => Some name
  | _ => None
  end.

(** A container the loop gets through: the filter raises for none of the
    aliases tried and either matches none, or the series is not empty and
    the timestamp of its first sample parses. *)
Definition gets_through (epoch_seconds : string → result Z)
  (match_container_name : option Matcher) (value : MachineEntry) : Prop :=
  matching_alias match_container_name value (aliases value) = Ok None
  ∨ ∃ name series first ts,
      matching_alias match_container_name value (aliases value) = Ok (Some name)
      ∧ stats value = Some series
      ∧ head series = Some first
      ∧ epoch_seconds (read first) = Ok ts.

Section WriterSpec.
Context {V S : Type}.
Variable write_points : S → list (Metric V) → result S.

(** A container's batch: its records, each with the tag set. *)
Definition tagged (remote_ip : string) (kv : string * list (Metric V))
  : list (Metric V) :=
  set_remote_ip remote_ip <$> kv.2.

(** The entry once the records of the containers [done] are tagged. *)
Definition tag_entry (remote_ip : string)
  (done : list (string * list (Metric V)))
  (entry : gmap string (list (Metric V))) : gmap string (list (Metric V)) :=
  foldl (λ e kv, <[kv.1 := tagged remote_ip kv]> e) entry done.

(** What the store does with a sequence of batches written one after the
    other until one is refused: how many were handed to it (the refused
    one included), its state, and the exception if any. *)
Fixpoint store_run (client : S) (batches : list (list (Metric V)))
  : nat * S * result unit :=
  match batches with
  | [] => (0%nat, client, Ok ())
  | batch :: rest =>
      match write_points client batch with
      | Raise e => (1%nat, client, Raise e)
      | Ok client' =>
          let '(n, client'', r) := store_run client' rest in
          (Datatypes.S n, client'', r)
      end
  end.

Definition first_failure (client : S) (batches : list (list (Metric V)))
  : option exn :=
  match store_run client batches with
  | (_, _, Raise e) => Some e
  | (_, _, Ok _) => None
  end.

(** Two records that differ at most in the tag [remote_ip]. *)
Definition same_but_remote_ip (m m' : Metric V) : Prop :=
  measurement m' = measurement m
  ∧ timestamp m' = timestamp m
  ∧ fields m' = fields m
  ∧ ∀ key, key ≠ "remote_ip" → tags m' !! key = tags m !! key.
End WriterSpec.

(** * Fixtures *)

(** A timestamp parser that knows two instants. *)
Definition epoch_fixture (s : string) : result Z :=
  if String.eqb s "2015-11-04T00:00:00Z" then Ok 1446595200
  else if String.eqb s "2015-11-04T00:00:01Z" then Ok 1446595201
  else Raise (ValueError "Unknown string format").

Definition sample (time : string) (memory cpu tx rx : Z) : Stat :=
  {| read := time;
     memory_stats := {| usage := memory |};
     cpu_stats := {| cpu_usage := {| total_usage := cpu |};
                     system_cpu_usage := 10 * cpu |};
     network := {| tx_bytes := tx; rx_bytes := rx;
                   tx_packets := tx / 100; rx_packets := rx / 100;
                   tx_errors := 0; rx_errors := 0;
                   tx_dropped := 0; rx_dropped := 0 |} |}.

Definition sample_0 : Stat := sample "2015-11-04T00:00:00Z" 4096 700 2048 1024.
Definition sample_1 : Stat := sample "2015-11-04T00:00:01Z" 6144 900 5120 3072.
(** The counters of [sample_1] after a restart of the runtime. *)
Definition sample_reset : Stat := sample "2015-11-04T00:00:01Z" 1024 100 0 0.

(** Readings below zero, and readings that are all zero. *)
Definition negative_series : list Stat :=
  [sample "2015-11-04T00:00:00Z" (-2048) 0 0 0;
   sample "2015-11-04T00:00:01Z" (-4096) 0 0 0;
   sample "2015-11-04T00:00:01Z" (-1024) 0 0 0].

Definition zero_series : list Stat :=
  [sample "2015-11-04T00:00:00Z" 0 0 0 0;
   sample "2015-11-04T00:00:01Z" 0 0 0 0].

Definition all_stats_of (s : Stat) : AllStats :=
  {| wanted := s; blkio_stats := [("io_service_bytes", 0)] |}.

(** Two documents, then the stream ends. *)
Definition healthy_stream : StatsObj :=
  {| started := 1446595200;
     ticks := [ {| chunk := Ok (all_stats_of sample_0); clock := 1446595200 |};
                {| chunk := Ok (all_stats_of sample_1); clock := 1446595201 |} ] |}.

(** One document, then reading the stream raises. *)
Definition broken_stream : StatsObj :=
  {| started := 1446595200;
     ticks := [ {| chunk := Ok (all_stats_of sample_0); clock := 1446595200 |};
                {| chunk := Raise (ValueError "No JSON object could be decoded");
                   clock := 1446595201 |} ] |}.

Definition two_containers : DockerClient :=
  {| containers := [ {| Id := "aaa"; Names := ["/web"] |};
                     {| Id := "bbb"; Names := ["/db"] |} ];
     client_stats := fun id =>
       if String.eqb id "aaa" then broken_stream else healthy_stream |}.

Definition two_healthy_containers : DockerClient :=
  {| containers := containers two_containers;
     client_stats := fun id => healthy_stream |}.

Definition post_fixture
  : string → gmap string (list (Metric (pyval float))) → result unit :=
  fun _ _ => Ok ().

Definition collector_url : string := "http://0.0.0.0:8989/collector/metrics/".

(** A store that keeps the points written, and one that refuses every
    write. *)
Definition accepting_store (points batch : list (Metric Z))
  : result (list (Metric Z)) := Ok (points ++ batch).

Definition refusing_store (points batch : list (Metric Z))
  : result (list (Metric Z)) :=
  Raise (InfluxDBClientError "partial write: field type conflict").

Definition record (measurement_name container : string) (value : Z) : Metric Z :=
  format_data measurement_name container 1446595200 {[ "total" := value ]}.

Definition c1_records : list (Metric Z) :=
  [record "cpu.usage" "c1" 200; record "memory.usage" "c1" 10;
   record "network.usage" "c1" 3].

Definition c1_entry : gmap string (list (Metric Z)) := {[ "c1" := c1_records ]}.

Definition c1_c2_entry : gmap string (list (Metric Z)) :=
  <["c2" := [record "cpu.usage" "c2" 50]]> c1_entry.

Definition quote : string := String "034" EmptyString.

(** The JSON text of a payload with the container ["c1"] and no record. *)
Definition c1_document : string := "{" ++ quote ++ "c1" ++ quote ++ ": []}".

(** A decoder that knows two documents. *)
Definition json_fixture (s : string) : result (gmap string (list (Metric Z))) :=
  if String.eqb s "{}" then Ok ∅
  else if String.eqb s c1_document then Ok {[ "c1" := [] ]}
  else Raise (ValueError "No JSON object could be decoded").

Definition idle_server : Server (J:=gmap string (list (Metric Z)))
                                (S:=list (Metric Z)) :=
  {| store := []; processes := []; error_log := [] |}.

Definition blank_response : Response :=
  {| status := ""; headers := ∅; body := "" |}.

(** Three devices, with the byte counters of each, and the operation
    counters under [io_serviced]. *)
Definition device (n read_bytes write_bytes : Z) : DiskEntry :=
  {| major := 8; minor := n;
     disk_stats := <["Read" := read_bytes]> (<["Write" := write_bytes]>
                     (<["Sync" := write_bytes]> (<["Async" := read_bytes]> ∅))) |}.

Definition three_devices : gmap string (list DiskEntry) :=
  <["io_service_bytes" := [device 0 4096 512; device 16 100 200; device 32 1 2]]>
    (<["io_serviced" := [device 0 9 9; device 16 9 9; device 32 9 9]]> ∅).

(** A sample whose timestamp the parser does not read, and a docker
    client with a container that starts with it beside a healthy one. *)
Definition garbled_sample : Stat := sample "0000-00-00" 4096 700 2048 1024.

Definition garbled_stream : StatsObj :=
  {| started := 1446595200;
     ticks := [ {| chunk := Ok (all_stats_of garbled_sample); clock := 1446595200 |};
                {| chunk := Ok (all_stats_of sample_1); clock := 1446595201 |} ] |}.

Definition one_garbled_container : DockerClient :=
  {| containers := [ {| Id := "aaa"; Names := ["/web"] |};
                     {| Id := "ddd"; Names := ["/late"] |} ];
     client_stats := fun id =>
       if String.eqb id "ddd" then garbled_stream else healthy_stream |}.

(** A stream that ends before its first document, and a docker client
    with one such container beside a healthy one. *)
Definition silent_stream : StatsObj := {| started := 1446595200; ticks := [] |}.

Definition one_silent_container : DockerClient :=
  {| containers := [ {| Id := "aaa"; Names := ["/web"] |};
                     {| Id := "ccc"; Names := ["/idle"] |} ];
     client_stats := fun id =>
       if String.eqb id "ccc" then silent_stream else healthy_stream |}.

(** What cadvisor answers: a container with two samples, and one that
    has no sample yet. *)
Definition cadvisor_sample (time : string) (memory_usage cpu_total : Z)
  : Cadvisor.Stat :=
  {| Cadvisor.timestamp := time;
     Cadvisor.cpu := {| Cadvisor.usage := {| Cadvisor.total := cpu_total |};
                        Cadvisor.load_average := 0 |};
     Cadvisor.memory := {| usage := memory_usage |};
     Cadvisor.network := network sample_0 |}.

Definition cadvisor_web : Cadvisor.Entry :=
  {| Cadvisor.aliases := ["web"; "aaa"];
     Cadvisor.stats := [cadvisor_sample "2015-11-04T00:00:00Z" 4096 700;
                        cadvisor_sample "2015-11-04T00:00:01Z" 6144 900] |}.

Definition cadvisor_new : Cadvisor.Entry :=
  {| Cadvisor.aliases := ["sender"]; Cadvisor.stats := [] |}.

Definition cadvisor_url : string := "http://172.17.0.1:8080/api/v1.2".

Definition cadvisor_one : string → result (gmap string Cadvisor.Entry) :=
  fun _ => Ok {[ "/docker/aaa" := cadvisor_web ]}.

Definition cadvisor_two : string → result (gmap string Cadvisor.Entry) :=
  fun _ => Ok (<["/docker/bbb" := cadvisor_new]> {[ "/docker/aaa" := cadvisor_web ]}).

(** A decoder that knows the document of [c1_c2_entry]. *)
Definition c1_c2_document : string := "c1_c2.json".

Definition json_c1_c2 (s : string) : result (gmap string (list (Metric Z))) :=
  if String.eqb s c1_c2_document then Ok c1_c2_entry
  else Raise (ValueError "No JSON object could be decoded").

(** A store that refuses the batches of more than one point. *)
Definition small_batch_store (points batch : list (Metric Z))
  : result (list (Metric Z)) :=
  if (length batch <=? 1)%nat then Ok (points ++ batch)
  else Raise (InfluxDBClientError "partial write: field type conflict").

(** * Properties of the sender's filters *)

Example uuid_v1 : raises (UUID "f47ac10b-58cc-1ef1-b532-0242ac130003" (Some 1)) = false.
Proof. vm_compute. reflexivity. Qed.
Example uuid_redis : raises (UUID "redis-cache" (Some 1)) = true.
Proof. vm_compute. reflexivity. Qed.

Lemma int16_raises_ValueError (s : string) (e : exn) :
  int16 s = Raise e → ∃ msg, e = ValueError msg.
Proof.
  unfold int16.
  match goal with
  | |- context [let '(_, _) := ?x in _] => destruct x as [neg s1]
  end.
  destruct (int16_digits false false 0 (int16_prefix s1)); intros Hr.
  - discriminate Hr.
  - injection Hr as <-. eauto.
Qed.

Lemma UUID_raises_ValueError (hex : string) (version : option Z) (e : exn) :
  UUID hex version = Raise e → ∃ msg, e = ValueError msg.
Proof.
  unfold UUID.
  destruct (negb (Nat.eqb _ 32)).
  { intros [= <-]. eauto. }
  destruct (int16 _) as [int|e'] eqn:Hint; simpl.
  2: { intros [= <-]. eapply int16_raises_ValueError, Hint. }
  destruct (negb ((0 <=? int) && (int <? Z.shiftl 1 128))).
  { intros [= <-]. eauto. }
  destruct version as [v|]; [|discriminate].
  destruct (negb ((1 <=? v) && (v <=? 5))); [|discriminate].
  intros [= <-]. eauto.
Qed.

Lemma match_on_uuid_value (name : string) (value : MachineEntry) :
  match_on_uuid name value
  = Ok (bool_decide ("sender" ∉ aliases value)
        && negb (raises (UUID name (Some 1)))).
Proof.
  unfold match_on_uuid.
  destruct (decide ("sender" ∈ aliases value)) as [Hin|Hin].
  - rewrite bool_decide_eq_true_2 by done.
    rewrite (bool_decide_eq_false_2 ("sender" ∉ aliases value)) by tauto.
    reflexivity.
  - rewrite bool_decide_eq_false_2 by done.
    rewrite (bool_decide_eq_true_2 ("sender" ∉ aliases value)) by done.
    destruct (UUID name (Some 1)) as [int|e] eqn:HU; [reflexivity|].
    destruct (UUID_raises_ValueError _ _ _ HU) as [msg ->]. reflexivity.
Qed.

(** C7, as amended. [match_on_uuid] never raises, and it matches a name
    exactly when ["sender"] is not among the container's aliases and
    [uuid.UUID(name, version=1)] accepts the name; the version digits of
    the name are not examined. It matches
    ["f47ac10b-58cc-1ef1-b532-0242ac130003"] for every container without
    the alias ["sender"], and matches ["redis-cache"] for none. *)
Theorem match_on_uuid_spec :
  (∀ (name : string) (value : MachineEntry),
      ∃ b : bool,
        match_on_uuid name value = Ok b
        ∧ (b = true ↔
           (("sender" ∉ aliases value) ∧ ∃ int, UUID name (Some 1) = Ok int)))
  ∧ (∀ value : MachineEntry,
        match_on_uuid uuid_v1_name value
        = Ok (bool_decide ("sender" ∉ aliases value)))
  ∧ (∀ value : MachineEntry, match_on_uuid "redis-cache" value = Ok false).
Proof.
  split; [|split].
  - intros name value. eexists. split; [apply match_on_uuid_value|].
    rewrite andb_true_iff, bool_decide_eq_true, negb_true_iff.
    destruct (UUID name (Some 1)) as [int|e]; simpl.
    + split; [intros [? _]; eauto | tauto].
    + split; [intros [_ [=]] | intros [_ [int [=]]]].
  - intros value. rewrite match_on_uuid_value.
    replace (raises (UUID uuid_v1_name (Some 1))) with false
      by (vm_compute; reflexivity).
    simpl. by rewrite andb_true_r.
  - intros value. rewrite match_on_uuid_value.
    replace (raises (UUID "redis-cache" (Some 1))) with true
      by (vm_compute; reflexivity).
    simpl. by rewrite andb_false_r.
Qed.

(** C7 as stated fails in both directions: a version-1 UUID name is not
    matched when the container has the alias ["sender"], and a version-4
    UUID name is matched. *)
Lemma match_on_uuid_not_version1_iff :
  (parses_as_version1_uuid uuid_v1_name = true
   ∧ match_on_uuid uuid_v1_name
       {| aliases := [uuid_v1_name; "sender"]; stats := Some [] |} = Ok false)
  ∧ (parses_as_version1_uuid uuid_v4_name = false
     ∧ match_on_uuid uuid_v4_name
         {| aliases := [uuid_v4_name]; stats := Some [] |} = Ok true).
Proof. vm_compute. repeat split. Qed.

(** [match_all_but_sender] never raises; it excludes the containers that
    have the alias ["sender"] and matches every other container. *)
Lemma match_all_but_sender_value (name : string) (value : MachineEntry) :
  match_all_but_sender name value = Ok (bool_decide ("sender" ∉ aliases value)).
Proof.
  unfold match_all_but_sender.
  destruct (decide ("sender" ∈ aliases value)) as [Hin|Hin].
  - rewrite bool_decide_eq_true_2 by done.
    by rewrite (bool_decide_eq_false_2 ("sender" ∉ aliases value)) by tauto.
  - rewrite bool_decide_eq_false_2 by done.
    by rewrite (bool_decide_eq_true_2 ("sender" ∉ aliases value)) by done.
Qed.

(** The policies that are selected: [MATCH_TYPE=ALL], which is the value
    taken when the variable is not set, binds [match_all], which matches
    every container; [MATCH_TYPE=UUID] binds [match_on_uuid]. *)
Lemma default_and_uuid_selection :
  select_match_container_name "ALL" = Ok (Some match_all)
  ∧ select_match_container_name "UUID" = Ok (Some match_on_uuid)
  ∧ ∀ name value, match_all name value = Ok true.
Proof. repeat split. Qed.

(** C9, at the failing input. With [MATCH_TYPE=NO_CADVISOR] the selection
    reads the name [match_all_but_cadvisor], which no [def] binds (the
    function is called [match_all_but_sender]): the script stops with
    [NameError] and no strategy is selected. *)
Theorem select_no_cadvisor_raises :
  select_match_container_name "NO_CADVISOR"
  = Raise (NameError "match_all_but_cadvisor")
  ∧ defined_functions !! "match_all_but_cadvisor" = None
  ∧ defined_functions !! "match_all_but_sender" = Some match_all_but_sender.
Proof.
  split; [|split].
  - vm_compute. reflexivity.
  - vm_compute. reflexivity.
  - reflexivity.
Qed.

(** A value of [MATCH_TYPE] outside the three of the chain binds nothing:
    the first call of [match_container_name] raises [NameError]. *)
Lemma other_match_type_binds_nothing :
  select_match_container_name "SENDER" = Ok None
  ∧ ∀ name value,
      call_match None name value = Raise (NameError "match_container_name").
Proof. split; [vm_compute|]; reflexivity. Qed.

(** * Properties of the aggregation *)

(** ** Running extrema

    [total_min_max] keeps a bound that is replaced by a strictly smaller
    (or strictly greater) value. For a strict order, the bound reached over
    a list is a member of the list below which (above which) no member
    lies. The maximum is the same fact for the converse order. *)

Section Extremum.
Context {A : Type} (lt : A → A → bool).
Hypothesis lt_irrefl : ∀ x, lt x x = false.
Hypothesis lt_trans : ∀ x y z, lt x y = true → lt y z = true → lt x z = true.

Lemma extremum_from (l : list A) (m : A) :
  ∃ m', foldl (extremum_step lt) (Some m) l = Some m'
        ∧ (m' = m ∨ m' ∈ l)
        ∧ (∀ r, lt r m' = true → lt r m = true)
        ∧ (∀ r, r ∈ l → lt r m' = false).
Proof.
  revert m. induction l as [|x l IH]; intros m; simpl.
  - exists m. split; [done|]. split; [by left|]. split; [done|].
    intros r Hr. by apply elem_of_nil in Hr.
  - destruct (lt x m) eqn:Hxm.
    + destruct (IH x) as (m' & Hfold & Hmem & Hbelow & Hmin).
      exists m'. split; [done|]. split.
      { right. destruct Hmem as [->|Hmem]; [left | by right]. }
      split.
      { intros r Hr. apply (lt_trans r x m); auto. }
      intros r [->|Hr]%elem_of_cons; [|by apply Hmin].
      destruct (lt x m') eqn:Hx; [|done].
      apply Hbelow in Hx. by rewrite lt_irrefl in Hx.
    + destruct (IH m) as (m' & Hfold & Hmem & Hbelow & Hmin).
      exists m'. split; [done|]. split.
      { destruct Hmem as [->|Hmem]; [by left | right; by right]. }
      split; [done|].
      intros r [->|Hr]%elem_of_cons; [|by apply Hmin].
      destruct (lt x m') eqn:Hx; [|done].
      apply Hbelow in Hx. congruence.
Qed.

Lemma extremum_of_list (x : A) (l : list A) :
  ∃ m, foldl (extremum_step lt) None (x :: l) = Some m
       ∧ m ∈ x :: l
       ∧ ∀ r, r ∈ x :: l → lt r m = false.
Proof.
  simpl. destruct (extremum_from l x) as (m & Hfold & Hmem & Hbelow & Hmin).
  exists m. split; [done|]. split.
  { destruct Hmem as [->|Hmem]; [left | by right]. }
  intros r [->|Hr]%elem_of_cons; [|by apply Hmin].
  destruct (lt x m) eqn:Hx; [|done].
  apply Hbelow in Hx. by rewrite lt_irrefl in Hx.
Qed.
End Extremum.

Lemma subscript_head {A : Type} (l : list A) (x : A) :
  head l = Some x → subscript l 0 = Ok x.
Proof. destruct l as [|y l]; [done|]. by intros [= ->]. Qed.

Lemma subscript_last {A : Type} (l : list A) (x : A) :
  last l = Some x → subscript l (Z.of_nat (length l) - 1) = Ok x.
Proof.
  intros Hlast. unfold subscript.
  assert (length l ≠ 0%nat) as Hlen.
  { destruct l; [done|]. simpl. lia. }
  assert ((Z.of_nat (length l) - 1 <? 0) = false) as Hlt
    by (apply Z.ltb_ge; lia).
  cbv zeta. rewrite !Hlt.
  replace (Z.to_nat (Z.of_nat (length l) - 1)) with (pred (length l)) by lia.
  by rewrite <- last_lookup, Hlast.
Qed.

Section Aggregation.
Context {F : Type} `{PyFloat F}.
Variable epoch_seconds : string → result Z.


Lemma totals_step_min (t : Totals) (stat : Stat) :
  min_memory (totals_step t stat)
  = extremum_step flt (min_memory t) (memory_kb stat).
Proof.
  unfold totals_step, total_min_max, extremum_step; simpl.
  destruct (min_memory t); [|done]. by destruct (flt _ _).
Qed.

Lemma totals_step_max (t : Totals) (stat : Stat) :
  max_memory (totals_step t stat)
  = extremum_step (flip flt) (max_memory t) (memory_kb stat).
Proof.
  unfold totals_step, total_min_max, extremum_step; simpl.
  destruct (max_memory t); [|done]. unfold flip. by destruct (flt _ _).
Qed.


Lemma totals_min (stats : list Stat) (t : Totals) :
  min_memory (foldl totals_step t stats)
  = foldl (extremum_step flt) (min_memory t) (memory_kb <$> stats).
Proof.
  revert t. induction stats as [|stat stats IH]; intros t; [done|].
  rewrite fmap_cons. cbn [foldl]. by rewrite IH, totals_step_min.
Qed.

Lemma totals_max (stats : list Stat) (t : Totals) :
  max_memory (foldl totals_step t stats)
  = foldl (extremum_step (flip flt)) (max_memory t) (memory_kb <$> stats).
Proof.
  revert t. induction stats as [|stat stats IH]; intros t; [done|].
  rewrite fmap_cons. cbn [foldl]. by rewrite IH, totals_step_max.
Qed.

(** The three records of a non-empty series whose first timestamp
    parses. *)
Lemma container_records_eq (container_name : string) (als : list string)
  (stats : list Stat) (first last_stat : Stat) (ts : Z) :
  head stats = Some first →
  last stats = Some last_stat →
  epoch_seconds (read first) = Ok ts →
  container_records epoch_seconds container_name
    {| aliases := als; stats := Some stats |}
  = Ok [format_data "cpu.usage" container_name ts (cpu_usage_fields first last_stat);
        format_data "memory.usage" container_name ts
          (memory_usage_fields (foldl totals_step initial_totals stats)
             (Z.of_nat (length stats)));
        format_data "network.usage" container_name ts
          (network_usage_fields first last_stat)].
Proof.
  intros Hhead Hlast Hts. unfold container_records, stats_subscript. simpl.
  rewrite (subscript_head _ _ Hhead). simpl. rewrite Hts. simpl.
  by rewrite (subscript_last _ _ Hlast).
Qed.
End Aggregation.

(** ** The fields of the three records *)

Section Fields.
Context {F : Type} `{PyFloat F}.

Lemma cpu_total (first last_stat : Stat) :
  cpu_usage_fields (F:=F) first last_stat !! "total"
  = Some (PyInt (total_usage (cpu_usage (cpu_stats last_stat))
                 - total_usage (cpu_usage (cpu_stats first)))).
Proof. reflexivity. Qed.

Lemma memory_fields (t : Totals) (stats_len : Z) :
  memory_usage_fields t stats_len !! "total" = Some (PyFloat_ (total_memory t))
  ∧ memory_usage_fields t stats_len !! "ave"
    = Some (PyFloat_ (fdiv (total_memory t) (float_of_int stats_len)))
  ∧ memory_usage_fields t stats_len !! "max" = Some (of_option (max_memory t))
  ∧ memory_usage_fields t stats_len !! "min" = Some (of_option (min_memory t)).
Proof. repeat split. Qed.

Lemma network_fields (first last_stat : Stat) :
  let net := network_usage_fields (F:=F) first last_stat in
  net !! "tx_kb" = Some (PyFloat_ (kb (delta tx_bytes first last_stat)))
  ∧ net !! "rx_kb" = Some (PyFloat_ (kb (delta rx_bytes first last_stat)))
  ∧ net !! "tx_packets" = Some (PyInt (delta tx_packets first last_stat))
  ∧ net !! "rx_packets" = Some (PyInt (delta rx_packets first last_stat))
  ∧ net !! "tx_errors" = Some (PyInt (delta tx_errors first last_stat))
  ∧ net !! "rx_errors" = Some (PyInt (delta rx_errors first last_stat))
  ∧ net !! "tx_dropped" = Some (PyInt (delta tx_dropped first last_stat))
  ∧ net !! "rx_dropped" = Some (PyInt (delta rx_dropped first last_stat)).
Proof. repeat split. Qed.
End Fields.

(** ** The claims about the aggregation *)

(** C2, as amended. For every series with at least one sample whose first
    timestamp parses, [cpu.usage.total] is the last sample's cumulative
    CPU counter minus the first sample's, and every [network.usage] field
    is last minus first of its counter, the two byte counters divided by
    1024.0; the difference is stored as it is, negative when the counter
    went down. The series need not have two samples: with one sample the
    first and the last sample coincide and the deltas are computed, as
    zero. *)
Theorem cumulative_deltas {F : Type} `{PyFloat F}
  (epoch_seconds : string → result Z) (container_name : string)
  (als : list string) (stats : list Stat) (first last_stat : Stat) (ts : Z) :
  head stats = Some first →
  last stats = Some last_stat →
  epoch_seconds (read first) = Ok ts →
  ∃ cpu mem net : Metric (pyval F),
    container_records epoch_seconds container_name
      {| aliases := als; stats := Some stats |} = Ok [cpu; mem; net]
    ∧ measurement cpu = "cpu.usage"
    ∧ fields cpu !! "total"
      = Some (PyInt (total_usage (cpu_usage (cpu_stats last_stat))
                     - total_usage (cpu_usage (cpu_stats first))))
    ∧ measurement net = "network.usage"
    ∧ fields net !! "tx_kb"
      = Some (PyFloat_ (fdiv (float_of_int (tx_bytes (network last_stat)
                                            - tx_bytes (network first)))
                             (float_of_int 1024)))
    ∧ fields net !! "rx_kb"
      = Some (PyFloat_ (fdiv (float_of_int (rx_bytes (network last_stat)
                                            - rx_bytes (network first)))
                             (float_of_int 1024)))
    ∧ fields net !! "tx_packets" = Some (PyInt (delta tx_packets first last_stat))
    ∧ fields net !! "rx_packets" = Some (PyInt (delta rx_packets first last_stat))
    ∧ fields net !! "tx_errors" = Some (PyInt (delta tx_errors first last_stat))
    ∧ fields net !! "rx_errors" = Some (PyInt (delta rx_errors first last_stat))
    ∧ fields net !! "tx_dropped" = Some (PyInt (delta tx_dropped first last_stat))
    ∧ fields net !! "rx_dropped" = Some (PyInt (delta rx_dropped first last_stat))
    ∧ (length stats = 1%nat → fields cpu !! "total" = Some (PyInt 0)).
Proof.
  intros Hhead Hlast Hts. eexists _, _, _.
  split; [by apply container_records_eq|].
  split; [reflexivity|]. split; [apply cpu_total|].
  split; [reflexivity|].
  pose proof (network_fields (F:=F) first last_stat) as Hnet.
  cbv zeta in Hnet. destruct Hnet as (?&?&?&?&?&?&?&?).
  do 8 (split; [assumption|]).
  intros Hlen. destruct stats as [|s [|s' stats]]; try discriminate.
  simpl in Hhead, Hlast. injection Hhead as ->. injection Hlast as ->.
  cbn [fields format_data]. rewrite cpu_total. by rewrite Z.sub_diag.
Qed.

(** The theorem at a series of two samples whose counters went down:
    the negative differences are the fields. *)
Lemma cumulative_deltas_witness :
  ∃ cpu mem net : Metric (pyval float),
    container_records epoch_fixture "c1"
      {| aliases := ["/c1"]; stats := Some [sample_0; sample_reset] |}
    = Ok [cpu; mem; net]
    ∧ fields cpu !! "total" = Some (PyInt (-600))
    ∧ fields net !! "tx_kb" = Some (PyFloat_ (-2)%float)
    ∧ fields net !! "rx_packets" = Some (PyInt (-10)).
Proof.
  destruct (cumulative_deltas (F:=float) epoch_fixture "c1" ["/c1"]
              [sample_0; sample_reset] sample_0 sample_reset 1446595200
              eq_refl eq_refl eq_refl)
    as (cpu & mem & net & Hrec & _ & Hcpu & _ & Htx & _ & _ & Hrx & _).
  exists cpu, mem, net. repeat split; assumption.
Defined.

(** C2 as stated fails: a series of one sample yields the three records,
    with the deltas computed from that one sample. *)
Lemma single_sample_delta_computed :
  match container_records (F:=float) epoch_fixture "c1"
          {| aliases := ["/c1"]; stats := Some [sample_0] |} with
  | Ok [cpu; mem; net] =>
      fields cpu !! "total" = Some (PyInt 0)
      ∧ fields net !! "tx_kb" = Some (PyFloat_ 0%float)
      ∧ fields net !! "rx_packets" = Some (PyInt 0)
  | _ => False
  end.
Proof. vm_compute. repeat split. Qed.

(** The three records of a series carry the first sample's timestamp, in
    whole seconds as the parser gives it, their measurement names, and the
    single tag [container_name]. *)
Lemma records_timestamp_and_tags {F : Type} `{PyFloat F}
  (epoch_seconds : string → result Z) (container_name : string)
  (als : list string) (stats : list Stat) (first : Stat) (ts : Z) :
  head stats = Some first →
  epoch_seconds (read first) = Ok ts →
  ∃ records : list (Metric (pyval F)),
    container_records epoch_seconds container_name
      {| aliases := als; stats := Some stats |} = Ok records
    ∧ measurement <$> records = ["cpu.usage"; "memory.usage"; "network.usage"]
    ∧ Forall (λ r, timestamp r = ts
                   ∧ tags r = {[ "container_name" := container_name ]})
        records.
Proof.
  intros Hhead Hts.
  destruct (last stats) as [last_stat|] eqn:Hlast.
  2: { apply last_None in Hlast. subst stats. discriminate Hhead. }
  eexists. split; [by eapply container_records_eq|].
  split; [reflexivity|]. by repeat constructor.
Qed.

(** The lemma at a series of two samples. *)
Lemma records_timestamp_and_tags_witness :
  ∃ records : list (Metric (pyval float)),
    container_records epoch_fixture "c1"
      {| aliases := ["/c1"]; stats := Some [sample_0; sample_1] |} = Ok records
    ∧ measurement <$> records = ["cpu.usage"; "memory.usage"; "network.usage"]
    ∧ Forall (λ r, timestamp r = 1446595200
                   ∧ tags r = {[ "container_name" := "c1" ]})
        records.
Proof.
  exact (records_timestamp_and_tags (F:=float) epoch_fixture "c1" ["/c1"]
           [sample_0; sample_1] sample_0 1446595200 eq_refl eq_refl).
Defined.



(** C4. For every non-empty series whose first timestamp parses, the
    [min] and [max] fields of [memory.usage] are memory readings of the
    series in kilobytes, that is [usage / 1024.0] of one of its samples,
    and no reading of the series is smaller than [min] or greater than
    [max], whatever the sign of the readings. ([<] is a strict order on
    the float type.) *)
Theorem memory_min_max {F : Type} `{PyFloatOrder F}
  (epoch_seconds : string → result Z) (container_name : string)
  (als : list string) (stats : list Stat) (first : Stat) (ts : Z) :
  head stats = Some first →
  epoch_seconds (read first) = Ok ts →
  ∃ (cpu mem net : Metric (pyval F)) (mn mx : F),
    container_records epoch_seconds container_name
      {| aliases := als; stats := Some stats |} = Ok [cpu; mem; net]
    ∧ measurement mem = "memory.usage"
    ∧ fields mem !! "min" = Some (PyFloat_ mn)
    ∧ fields mem !! "max" = Some (PyFloat_ mx)
    ∧ mn ∈ (λ s, fdiv (float_of_int (usage (memory_stats s)))
                      (float_of_int 1024)) <$> stats
    ∧ mx ∈ (λ s, fdiv (float_of_int (usage (memory_stats s)))
                      (float_of_int 1024)) <$> stats
    ∧ ∀ r, r ∈ (λ s, fdiv (float_of_int (usage (memory_stats s)))
                          (float_of_int 1024)) <$> stats →
           flt r mn = false ∧ flt mx r = false.
Proof.
  intros Hhead Hts.
  change (λ s : Stat, fdiv (float_of_int (usage (memory_stats s)))
                        (float_of_int 1024))
    with (memory_kb (F:=F)).
  destruct (last stats) as [last_stat|] eqn:Hlast.
  2: { apply last_None in Hlast. subst stats. discriminate Hhead. }
  destruct stats as [|s stats]; [discriminate|].
  destruct (extremum_of_list flt flt_irrefl flt_trans
              (memory_kb s) (memory_kb <$> stats))
    as (mn & Hmn & Hmn_in & Hmn_least).
  destruct (extremum_of_list (flip flt)
              (λ x, flt_irrefl x)
              (λ x y z Hxy Hyz, flt_trans z y x Hyz Hxy)
              (memory_kb s) (memory_kb <$> stats))
    as (mx & Hmx & Hmx_in & Hmx_greatest).
  eexists _, _, _, mn, mx. split; [by eapply container_records_eq|].
  split; [reflexivity|]. cbn [fields format_data].
  destruct (memory_fields (foldl totals_step initial_totals (s :: stats))
              (Z.of_nat (length (s :: stats)))) as (_ & _ & Hmax & Hmin).
  rewrite Hmax, Hmin, totals_min, totals_max.
  rewrite fmap_cons. cbn [min_memory max_memory initial_totals].
  rewrite Hmn, Hmx. repeat split; try done.
  - by apply Hmn_least.
  - by apply Hmx_greatest.
Qed.

(** ** Strict orders on the two float types *)

Ltac compare_cases :=
  repeat match goal with
    | |- context [(?a ?= ?b)%Z] => destruct (Z.compare_spec a b); try subst
    | |- context [Pos.compare_cont Eq ?a ?b] =>
        change (Pos.compare_cont Eq a b) with (Pos.compare a b);
        destruct (Pos.compare_spec a b); try subst
    end;
  simpl; try discriminate; try reflexivity; try lia.

Lemma SFltb_irrefl (x : spec_float) : SFltb x x = false.
Proof.
  unfold SFltb, SFcompare.
  destruct x as [s|s| |s m e]; try destruct s; simpl; try reflexivity;
    rewrite Z.compare_refl, Pos.compare_cont_refl; reflexivity.
Qed.

Lemma SFltb_trans (x y z : spec_float) :
  SFltb x y = true → SFltb y z = true → SFltb x z = true.
Proof.
  unfold SFltb, SFcompare.
  destruct x as [s1|s1| |s1 m1 e1], y as [s2|s2| |s2 m2 e2],
           z as [s3|s3| |s3 m3 e3];
    try destruct s1; try destruct s2; try destruct s3; simpl;
    try discriminate; try reflexivity; compare_cases.
Qed.

#[global] Instance binary64_order : PyFloatOrder float.
Proof.
  split; simpl.
  - intros x. rewrite ltb_spec. apply SFltb_irrefl.
  - intros x y z. rewrite !ltb_spec. apply SFltb_trans.
Qed.

#[global] Instance rational_order : PyFloatOrder Q.
Proof.
  split; simpl.
  - intros x. apply negb_false_iff, Qle_bool_iff, Qle_refl.
  - intros x y z.
    rewrite !negb_true_iff, <- !not_true_iff_false, !Qle_bool_iff.
    intros Hxy Hyz Hzx. apply Qnot_le_lt in Hxy, Hyz.
    apply (Qlt_irrefl x). eapply Qlt_trans; [apply Hxy|].
    eapply Qlt_le_trans; eauto.
Qed.

(** The theorem at the series of negative readings, on binary64 floats. *)
Lemma memory_min_max_witness :
  ∃ cpu mem net : Metric (pyval float),
    container_records epoch_fixture "c1"
      {| aliases := ["/c1"]; stats := Some negative_series |}
    = Ok [cpu; mem; net]
    ∧ measurement mem = "memory.usage"
    ∧ fields mem !! "min" = Some (PyFloat_ (-4)%float)
    ∧ fields mem !! "max" = Some (PyFloat_ (-1)%float)
    ∧ ∀ r, r ∈ [(-2)%float; (-4)%float; (-1)%float] →
           PrimFloat.ltb r (-4)%float = false
           ∧ PrimFloat.ltb (-1)%float r = false.
Proof.
  destruct (memory_min_max (F:=float) epoch_fixture "c1" ["/c1"] negative_series
              (sample "2015-11-04T00:00:00Z" (-2048) 0 0 0) 1446595200
              eq_refl eq_refl)
    as (cpu & mem & net & mn & mx & Hrec & Hname & Hmin & Hmax & _ & _ & Hall).
  vm_compute in Hrec. injection Hrec as <- <- <-.
  vm_compute in Hmin. injection Hmin as <-.
  vm_compute in Hmax. injection Hmax as <-.
  eexists _, _, _. split; [vm_compute; reflexivity|].
  split; [reflexivity|]. split; [reflexivity|]. split; [reflexivity|].
  exact Hall.
Defined.

Example negative_series_min_max :
  match container_records (F:=float) epoch_fixture "c1"
          {| aliases := ["/c1"]; stats := Some negative_series |} with
  | Ok [_; mem; _] =>
      fields mem !! "min" = Some (PyFloat_ (-4)%float)
      ∧ fields mem !! "max" = Some (PyFloat_ (-1)%float)
      ∧ fields mem !! "total" = Some (PyFloat_ (-7)%float)
  | _ => False
  end.
Proof. vm_compute. repeat split. Qed.

Example zero_series_min_max :
  match container_records (F:=float) epoch_fixture "c1"
          {| aliases := ["/c1"]; stats := Some zero_series |} with
  | Ok [_; mem; _] =>
      fields mem !! "min" = Some (PyFloat_ 0%float)
      ∧ fields mem !! "max" = Some (PyFloat_ 0%float)
  | _ => False
  end.
Proof. vm_compute. repeat split. Qed.

(** * Properties of the sampling *)

Lemma collect_loop_bound (stats_obj : list Tick) (collected_stats : list Stat)
  (interval end_time : Z) (series : list Stat) :
  Z.of_nat (length collected_stats) < interval →
  collect_loop stats_obj collected_stats interval end_time = Ok series →
  Z.of_nat (length series) ≤ interval.
Proof.
  revert collected_stats.
  induction stats_obj as [|container_stat rest IH]; intros collected_stats Hlen.
  { intros [= <-]. lia. }
  cbn [collect_loop]. destruct (chunk container_stat) as [all_stats|e]; [|done].
  cbn [mbind result_bind rbind].
  destruct (interval <=? Z.of_nat (length (collected_stats ++ [select_wanted all_stats])))
    eqn:Hfull; cbn [orb].
  - intros [= <-]. rewrite length_app in *. simpl in *. lia.
  - apply Z.leb_gt in Hfull.
    destruct (end_time <=? clock container_stat).
    + intros [= <-]. lia.
    + by apply IH.
Qed.

(** The series collected for a container never has more samples than the
    window has seconds. *)
Lemma collected_series_within_window (stats_obj : StatsObj)
  (container_id : string) (container_aliases : list string)
  (machine_stats : gmap string MachineEntry) (interval : Z)
  (series : list Stat) :
  0 < interval →
  stats <$> (get_stats_from_daemon stats_obj container_id container_aliases
               machine_stats interval !! container_id) = Some (Some series) →
  Z.of_nat (length series) ≤ interval.
Proof.
  intros Hpos. unfold get_stats_from_daemon. rewrite lookup_insert_eq. simpl.
  destruct (collect_loop _ _ _ _) as [l|e] eqn:Hloop; [|done].
  intros [= <-]. eapply collect_loop_bound; [|exact Hloop]. simpl. lia.
Qed.

(** The lemma at a stream of two documents and the window of 60 s. *)
Lemma collected_series_within_window_witness :
  Z.of_nat (length [sample_0; sample_1]) ≤ 60.
Proof.
  exact (collected_series_within_window healthy_stream "bbb" ["/db"] ∅ 60
           [sample_0; sample_1] eq_refl eq_refl).
Defined.

(** * A stats stream that breaks *)

(** C1, at the failing input: two containers under the default policy
    [MATCH_TYPE=ALL], the stream of the first breaks after one document.
    Its series is recorded as [None] and the second container is sampled
    in full; but the aggregation subscripts the [None] series, the cycle
    ends with [TypeError] and nothing is posted, although the second
    container alone would have been aggregated and posted. *)
Theorem broken_stream_aborts_cycle :
  run_processes two_containers 60 !! "aaa"
  = Some {| aliases := ["/web"]; stats := None |}
  ∧ run_processes two_containers 60 !! "bbb"
    = Some {| aliases := ["/db"]; stats := Some [sample_0; sample_1] |}
  ∧ get_dockerstats_metrics epoch_fixture post_fixture (Some match_all)
      collector_url two_containers
    = {| posted := [];
         outcome := Raise (TypeError "'NoneType' object is not subscriptable") |}
  ∧ (∃ payload,
        get_dockerstats_metrics epoch_fixture post_fixture (Some match_all)
          collector_url two_healthy_containers
        = {| posted := [(collector_url, payload)]; outcome := Ok () |}
        ∧ is_Some (payload !! "web") ∧ is_Some (payload !! "db")).
Proof.
  split; [vm_compute; reflexivity|].
  split; [vm_compute; reflexivity|].
  split; [vm_compute; reflexivity|].
  eexists. split; [vm_compute; reflexivity|].
  split; vm_compute; eauto.
Qed.

(** The same for every docker client: a series recorded as [None] whose
    container has a matching alias stops the aggregation, whatever the
    other containers are, and nothing is posted. *)

Section BrokenStream.
Context {F : Type} `{PyFloat F}.
Variable epoch_seconds : string → result Z.
Variable http_post : string → gmap string (list (Metric (pyval F))) → result unit.

(** When reading or decoding the stream raises, whatever was collected
    before, the container is recorded with the series [None]: no partial
    series is kept. *)
Lemma get_stats_from_daemon_broken (stats_obj : StatsObj)
  (container_id : string) (container_aliases : list string)
  (machine_stats : gmap string MachineEntry) (interval : Z) :
  raises (collect_loop (ticks stats_obj) [] interval
            (started stats_obj + interval)) = true →
  get_stats_from_daemon stats_obj container_id container_aliases
    machine_stats interval !! container_id
  = Some {| aliases := container_aliases; stats := None |}.
Proof.
  intros Hr. unfold get_stats_from_daemon.
  destruct (collect_loop _ _ _ _); [discriminate|].
  by rewrite lookup_insert_eq.
Qed.

Lemma container_records_invalid (container_name : string) (value : MachineEntry) :
  stats value = None →
  container_records (F:=F) epoch_seconds container_name value
  = Raise (TypeError "'NoneType' object is not subscriptable").
Proof.
  intros Hnone. unfold container_records, stats_subscript.
  by rewrite Hnone.
Qed.

Lemma aggregate_loop_invalid (match_container_name : option Matcher)
  (items : list (string * MachineEntry))
  (payload : gmap string (list (Metric (pyval F))))
  (key name : string) (value : MachineEntry) :
  (key, value) ∈ items →
  stats value = None →
  matching_alias match_container_name value (aliases value) = Ok (Some name) →
  raises (aggregate_loop epoch_seconds match_container_name items payload) = true.
Proof.
  intros Hin Hnone Hmatch. revert payload.
  induction items as [|[k v] items IH]; intros payload.
  { by apply elem_of_nil in Hin. }
  cbn [aggregate_loop].
  apply elem_of_cons in Hin as [[= <- <-]|Hin].
  - unfold aggregate_entry. rewrite Hmatch. simpl.
    by rewrite container_records_invalid.
  - destruct (aggregate_entry epoch_seconds match_container_name v payload)
      as [payload'|e]; simpl; [by apply IH | done].
Qed.

Lemma invalid_series_aborts_cycle (match_container_name : option Matcher)
  (endpoint : string) (docker_client : DockerClient)
  (key name : string) (value : MachineEntry) :
  run_processes docker_client 60 !! key = Some value →
  stats value = None →
  matching_alias match_container_name value (aliases value) = Ok (Some name) →
  let cycle := get_dockerstats_metrics epoch_seconds http_post
                 match_container_name endpoint docker_client in
  posted cycle = [] ∧ raises (outcome cycle) = true.
Proof.
  intros Hlookup Hnone Hmatch. simpl. unfold get_dockerstats_metrics.
  pose proof (aggregate_loop_invalid match_container_name
                (map_to_list (run_processes docker_client 60)) ∅
                key name value) as Hr.
  destruct (aggregate_loop _ _ _ _) as [payload|e].
  - exfalso. simpl in Hr. discriminate Hr; try done.
    by apply elem_of_map_to_list.
  - done.
Qed.
End BrokenStream.

(** The lemma at the stream that breaks after one document. *)
Lemma get_stats_from_daemon_broken_witness :
  get_stats_from_daemon broken_stream "aaa" ["/web"] ∅ 60 !! "aaa"
  = Some {| aliases := ["/web"]; stats := None |}.
Proof.
  exact (get_stats_from_daemon_broken broken_stream "aaa" ["/web"] ∅ 60 eq_refl).
Defined.

(** * Properties of the collector's writer *)

Section Writer.
Context {V S : Type}.
Variable write_points : S → list (Metric V) → result S.

Lemma store_run_bound (client : S) (batches : list (list (Metric V))) :
  ((store_run write_points client batches).1.1 ≤ length batches)%nat.
Proof.
  revert client. induction batches as [|b bs IH]; intros client; simpl; [lia|].
  destruct (write_points client b) as [client'|e]; simpl; [|lia].
  specialize (IH client'). destruct (store_run write_points client' bs) as [[n c] r].
  simpl in *. lia.
Qed.

Lemma store_run_all (client : S) (batches : list (list (Metric V))) :
  first_failure write_points client batches = None →
  (store_run write_points client batches).1.1 = length batches.
Proof.
  unfold first_failure. revert client.
  induction batches as [|b bs IH]; intros client; simpl; [done|].
  destruct (write_points client b) as [client'|e]; simpl; [|done].
  specialize (IH client'). destruct (store_run write_points client' bs) as [[n c] r].
  simpl in *. intros Hr. by rewrite IH.
Qed.

Lemma tag_entry_lookup_other (remote_ip : string)
  (done : list (string * list (Metric V)))
  (entry : gmap string (list (Metric V))) (k : string) :
  k ∉ done.*1 → tag_entry remote_ip done entry !! k = entry !! k.
Proof.
  revert entry. induction done as [|[k' recs] done IH]; intros entry Hk; [done|].
  rewrite fmap_cons in Hk. apply not_elem_of_cons in Hk as [Hne Hk].
  unfold tag_entry in *. simpl. rewrite IH by done.
  by rewrite lookup_insert_ne.
Qed.

Lemma tag_entry_lookup_done (remote_ip : string)
  (done : list (string * list (Metric V)))
  (entry : gmap string (list (Metric V))) (k : string) (recs : list (Metric V)) :
  NoDup done.*1 → (k, recs) ∈ done →
  tag_entry remote_ip done entry !! k = Some (set_remote_ip remote_ip <$> recs).
Proof.
  revert entry. induction done as [|[k' recs'] done IH]; intros entry Hnd Hin.
  { by apply elem_of_nil in Hin. }
  rewrite fmap_cons in Hnd. apply NoDup_cons in Hnd as [Hk' Hnd].
  apply elem_of_cons in Hin as [[= -> ->]|Hin].
  - change (tag_entry remote_ip ((k', recs') :: done) entry)
      with (tag_entry remote_ip done
              (<[k' := set_remote_ip remote_ip <$> recs']> entry)).
    rewrite tag_entry_lookup_other by done. by rewrite lookup_insert_eq.
  - by apply IH.
Qed.

(** The loop of the writer, with the lookups of [entry[container]]
    resolved: it tags and writes a prefix of the containers. *)
Lemma write_loop_run (remote_ip : string)
  (items : list (string * list (Metric V))) (w : Writer) :
  NoDup items.*1 →
  (∀ k recs, (k, recs) ∈ items → w_entry w !! k = Some recs) →
  write_loop write_points items.*1 remote_ip w
  = ({| w_entry := tag_entry remote_ip
                     (take (store_run write_points (w_store w) (tagged remote_ip <$> items)).1.1
                           items)
                     (w_entry w);
        w_store := (store_run write_points (w_store w) (tagged remote_ip <$> items)).1.2;
        w_issued := w_issued w
                    ++ take (store_run write_points (w_store w)
                               (tagged remote_ip <$> items)).1.1
                            (tagged remote_ip <$> items) |},
     (store_run write_points (w_store w) (tagged remote_ip <$> items)).2).
Proof.
  revert w. induction items as [|[k recs] items IH]; intros w Hnd Hlook.
  { simpl. rewrite app_nil_r. by destruct w. }
  rewrite fmap_cons in Hnd. apply NoDup_cons in Hnd as [Hk Hnd].
  rewrite !fmap_cons. cbn [write_loop store_run fst snd].
  rewrite (Hlook k recs) by (apply elem_of_cons; by left).
  change (tagged remote_ip (k, recs)) with (set_remote_ip remote_ip <$> recs).
  destruct (write_points (w_store w) (set_remote_ip remote_ip <$> recs))
    as [store|e] eqn:Hwrite.
  - rewrite IH; [|done|].
    + cbn [w_store w_entry w_issued].
      destruct (store_run write_points store (tagged remote_ip <$> items)) as [[n c] r].
      cbn [fst snd take]. by rewrite <- app_assoc.
    + intros k' recs' Hin. cbn [w_entry].
      rewrite lookup_insert_ne; [apply Hlook, elem_of_cons; by right|].
      intros ->. apply Hk. apply list_elem_of_fmap. by exists (k', recs').
  - done.
Qed.

(** What a call of the writer does, in terms of the store's answers. *)
Lemma get_metadata_default_run (entry : gmap string (list (Metric V)))
  (remote_ip : string) (influx_client : S) (ignore_fail : bool) :
  _get_metadata_default write_points entry remote_ip influx_client ignore_fail
  = let batches := tagged remote_ip <$> map_to_list entry in
    let n := (store_run write_points influx_client batches).1.1 in
    {| final := {| w_entry := tag_entry remote_ip (take n (map_to_list entry)) entry;
                   w_store := (store_run write_points influx_client batches).1.2;
                   w_issued := take n batches |};
       logged := match (store_run write_points influx_client batches).2 with
                 | Ok _ => []
                 | Raise e => [e]
                 end;
       returned := Ok match (store_run write_points influx_client batches).2 with
                      | Ok _ => true
                      | Raise _ => ignore_fail
                      end |}.
Proof.
  unfold _get_metadata_default.
  rewrite write_loop_run.
  - cbn [w_entry w_store w_issued app]. cbv zeta.
    by destruct ((store_run write_points influx_client _).2).
  - apply NoDup_fst_map_to_list.
  - intros k recs Hin. cbn [w_entry]. by apply elem_of_map_to_list.
Qed.
End Writer.

(** ** The claims about the writer *)

(** C6, as amended. When the store refuses none of the writes of the
    call, the writer issues exactly one batched write per container of
    the payload, in the order of the payload's keys, each holding that
    container's records with the tag [remote_ip] set to the caller's
    address, and the entry ends with every record so tagged. (A refused
    write ends the loop: see [refused_write_skips_later_containers].) *)
Theorem writer_tags_and_writes {V S : Type}
  (write_points : S → list (Metric V) → result S)
  (entry : gmap string (list (Metric V))) (remote_ip : string)
  (influx_client : S) (ignore_fail : bool) :
  first_failure write_points influx_client
    (tagged remote_ip <$> map_to_list entry) = None →
  let run := _get_metadata_default write_points entry remote_ip
               influx_client ignore_fail in
  w_issued (final run) = tagged remote_ip <$> map_to_list entry
  ∧ length (w_issued (final run)) = size entry
  ∧ store_run write_points influx_client (w_issued (final run))
    = (size entry, w_store (final run), Ok ())
  ∧ (∀ container metrics,
        entry !! container = Some metrics →
        w_entry (final run) !! container
        = Some (set_remote_ip remote_ip <$> metrics)
        ∧ set_remote_ip remote_ip <$> metrics ∈ w_issued (final run))
  ∧ (∀ batch point,
        batch ∈ w_issued (final run) → point ∈ batch →
        tags point !! "remote_ip" = Some remote_ip)
  ∧ returned run = Ok true.
Proof.
  intros Hok. cbv zeta. rewrite get_metadata_default_run. cbv zeta.
  cbn [final w_issued w_entry w_store returned].
  pose proof (store_run_all write_points _ _ Hok) as Hn.
  rewrite Hn, length_fmap, !firstn_all.
  replace (take (length (map_to_list entry)) (tagged remote_ip <$> map_to_list entry))
    with (tagged remote_ip <$> map_to_list entry)
    by (rewrite <- (length_fmap (tagged remote_ip)); by rewrite firstn_all).
  unfold first_failure in Hok. rewrite length_fmap in Hn.
  destruct (store_run write_points influx_client
              (tagged remote_ip <$> map_to_list entry)) as [[n c] r] eqn:Hrun.
  simpl in Hn. subst n. destruct r as [[]|e]; [|discriminate].
  cbn [fst snd]. split; [done|].
  split; [by rewrite length_fmap, length_map_to_list|].
  split; [by rewrite length_map_to_list|]. split; [|split; [|done]].
  - intros container metrics Hlook.
    apply elem_of_map_to_list in Hlook. split.
    + apply tag_entry_lookup_done; [apply NoDup_fst_map_to_list | done].
    + apply list_elem_of_fmap. by exists (container, metrics).
  - intros batch point [[k recs] [-> _]]%list_elem_of_fmap.
    unfold tagged. simpl.
    intros [m [-> _]]%list_elem_of_fmap. simpl. apply lookup_insert_eq.
Qed.

(** The theorem at a payload of three records for ["c1"], the caller
    ["10.0.0.5"] and a store that accepts: the store holds exactly three
    points, each tagged with the caller's address. *)
Lemma writer_tags_and_writes_witness :
  let run := _get_metadata_default accepting_store c1_entry "10.0.0.5" [] false in
  (w_issued (final run) = tagged "10.0.0.5" <$> map_to_list c1_entry
   ∧ length (w_issued (final run)) = size c1_entry
   ∧ store_run accepting_store [] (w_issued (final run))
     = (size c1_entry, w_store (final run), Ok ())
   ∧ (∀ container metrics,
         c1_entry !! container = Some metrics →
         w_entry (final run) !! container
         = Some (set_remote_ip "10.0.0.5" <$> metrics)
         ∧ set_remote_ip "10.0.0.5" <$> metrics ∈ w_issued (final run))
   ∧ (∀ batch point,
         batch ∈ w_issued (final run) → point ∈ batch →
         tags point !! "remote_ip" = Some "10.0.0.5")
   ∧ returned run = Ok true)
  ∧ length (w_issued (final run)) = 1%nat
  ∧ length (w_store (final run)) = 3%nat
  ∧ Forall (λ point, tags point !! "remote_ip" = Some "10.0.0.5")
      (w_store (final run)).
Proof.
  split.
  - exact (writer_tags_and_writes accepting_store c1_entry "10.0.0.5" [] false
             eq_refl).
  - vm_compute. repeat split. repeat constructor.
Defined.

(** C6 as stated fails: when the store refuses the write of the first
    container, the second container's records are neither tagged nor
    written. *)
Lemma refused_write_skips_later_containers :
  let run := _get_metadata_default refusing_store c1_c2_entry "10.0.0.5" [] false in
  (map_to_list c1_c2_entry).*1 = ["c1"; "c2"]
  ∧ w_issued (final run) = [set_remote_ip "10.0.0.5" <$> c1_records]
  ∧ w_entry (final run) !! "c2" = Some [record "cpu.usage" "c2" 50]
  ∧ tags (record "cpu.usage" "c2" 50) !! "remote_ip" = None.
Proof. vm_compute. repeat split. Qed.

(** C8, as amended. When a store write of the call fails, the writer logs
    the exception and returns the flag [ignore_fail]; it does not raise
    again, whatever the flag. [ignore_fail] is [False] unless given, and
    [process] gives [False], so a failure makes the writer return [False];
    [process] drops that value and returns normally. When every write
    succeeds nothing is logged and the writer returns [True]. *)
Theorem writer_failure_handling {V S : Type}
  (write_points : S → list (Metric V) → result S)
  (entry : gmap string (list (Metric V))) (remote_ip : string)
  (influx_client : S) (ignore_fail : bool) :
  let run := _get_metadata_default write_points entry remote_ip
               influx_client ignore_fail in
  let default_run := _get_metadata_default write_points entry remote_ip
                       influx_client false in
  match first_failure write_points influx_client
          (tagged remote_ip <$> map_to_list entry) with
  | Some e => logged run = [e] ∧ returned run = Ok ignore_fail
  | None => logged run = [] ∧ returned run = Ok true
  end
  ∧ process write_points entry remote_ip influx_client
    = (final default_run, logged default_run, Ok ()).
Proof.
  cbv zeta. split.
  - rewrite get_metadata_default_run. cbv zeta. cbn [logged returned].
    unfold first_failure.
    destruct (store_run write_points influx_client
                (tagged remote_ip <$> map_to_list entry)) as [[n c] r].
    by destruct r.
  - unfold process. rewrite get_metadata_default_run. reflexivity.
Qed.

(** C8 as stated fails: with [ignore_fail=False] and a store that refuses
    the write, the writer returns [False] instead of raising, and
    [process] returns normally. *)
Lemma refused_write_is_not_raised :
  let run := _get_metadata_default refusing_store c1_entry "10.0.0.5" [] false in
  logged run = [InfluxDBClientError "partial write: field type conflict"]
  ∧ returned run = Ok false
  ∧ (process refusing_store c1_entry "10.0.0.5" []).2 = Ok ().
Proof. vm_compute. repeat split. Qed.

Lemma same_but_remote_ip_refl {V : Type} (m : Metric V) :
  same_but_remote_ip m m.
Proof. by repeat split. Qed.

Lemma same_but_remote_ip_set {V : Type} (remote_ip : string) (m : Metric V) :
  same_but_remote_ip m (set_remote_ip remote_ip m).
Proof.
  repeat split. intros key Hkey. simpl. by rewrite lookup_insert_ne.
Qed.

(** C10. Whatever the store answers, the call of the writer leaves the
    entry with the same containers, and each container with a list of as
    many records, each record equal to the one it was but for the tag
    [remote_ip]: measurement, timestamp, fields and every other tag are
    unchanged. *)
Theorem writer_frame {V S : Type}
  (write_points : S → list (Metric V) → result S)
  (entry : gmap string (list (Metric V))) (remote_ip : string)
  (influx_client : S) (ignore_fail : bool) :
  let entry' := w_entry (final (_get_metadata_default write_points entry
                                  remote_ip influx_client ignore_fail)) in
  dom entry' = dom entry
  ∧ ∀ container metrics,
      entry !! container = Some metrics →
      ∃ metrics',
        entry' !! container = Some metrics'
        ∧ length metrics' = length metrics
        ∧ Forall2 same_but_remote_ip metrics metrics'.
Proof.
  cbv zeta. rewrite get_metadata_default_run. cbv zeta. cbn [final w_entry].
  set (done := take _ (map_to_list entry)).
  assert (∀ k recs, (k, recs) ∈ done → entry !! k = Some recs) as Hdone.
  { intros k recs Hin. apply elem_of_map_to_list.
    unfold done in Hin. eapply elem_of_sublist; [done | apply sublist_take]. }
  assert (NoDup done.*1) as Hnd.
  { unfold done. rewrite fmap_take.
    eapply sublist_NoDup; [apply (NoDup_fst_map_to_list entry) | apply sublist_take]. }
  assert (∀ container metrics,
             entry !! container = Some metrics →
             tag_entry remote_ip done entry !! container = Some metrics
             ∨ tag_entry remote_ip done entry !! container
               = Some (set_remote_ip remote_ip <$> metrics)) as Hcases.
  { intros container metrics Hlook.
    destruct (decide (container ∈ done.*1)) as [Hin|Hin].
    - right. apply list_elem_of_fmap in Hin as [[k recs] [-> Hin]]. simpl in *.
      rewrite (Hdone _ _ Hin) in Hlook. injection Hlook as ->.
      by apply tag_entry_lookup_done.
    - left. by rewrite tag_entry_lookup_other. }
  split.
  - apply set_eq. intros k. rewrite !elem_of_dom. split.
    + intros [recs' Hk]. destruct (entry !! k) as [recs|] eqn:Hlook; [eauto|].
      destruct (decide (k ∈ done.*1)) as [Hin|Hin].
      * apply list_elem_of_fmap in Hin as [[k' recs] [-> Hin]]. simpl in *.
        rewrite (Hdone _ _ Hin) in Hlook. discriminate.
      * rewrite tag_entry_lookup_other in Hk by done. congruence.
    + intros [recs Hlook]. destruct (Hcases _ _ Hlook); eauto.
  - intros container metrics Hlook.
    destruct (Hcases _ _ Hlook) as [Hsame|Htagged]; eexists; (split; [eassumption|]).
    + split; [done|]. apply Forall2_same_length_lookup. split; [done|].
      intros i x y Hx Hy. rewrite Hx in Hy. injection Hy as <-.
      apply same_but_remote_ip_refl.
    + split; [by rewrite length_fmap|].
      apply Forall2_fmap_r, Forall_Forall2_diag, Forall_forall.
      intros m _. apply same_but_remote_ip_set.
Qed.

(** * Properties of the ingestion endpoint *)

(** C5. A POST with an empty body raises [HTTPBadRequest], status 400,
    with a title and a description, after logging an error; no handler
    process is started and the store is untouched. A POST with a
    non-empty body that decodes is answered 200 with the body [{}]; the
    handler process is started with the payload and the caller's address
    and is not waited for: the store is as it was when the answer is
    given. *)
Theorem on_post_empty_or_accepted {J S : Type}
  (json_loads : string → result J)
  (srv : Server (J:=J) (S:=S)) (req : Request) (resp : Response) :
  (stream req = "" →
   on_post json_loads srv req resp
   = ({| store := store srv; processes := processes srv;
         error_log := error_log srv
                      ++ ["Empty body provided when returning a command result."] |},
      Raise (HTTPBadRequest "Empty request body"
                            "A valid JSON document is required."))
   ∧ error_status (HTTPBadRequest "Empty request body"
                                  "A valid JSON document is required.")
     = Some "400 Bad Request")
  ∧ (∀ entry : J,
        stream req ≠ "" →
        json_loads (stream req) = Ok entry →
        ∃ resp' : Response,
          on_post json_loads srv req resp
          = ({| store := store srv;
                processes := processes srv ++ [(entry, REMOTE_ADDR req)];
                error_log := error_log srv |},
             Ok resp')
          ∧ status resp' = "200 OK"
          ∧ body resp' = "{}"
          ∧ headers resp' !! "Content-Type" = Some "application/json").
Proof.
  split.
  - intros Hempty. unfold on_post. rewrite Hempty. by split.
  - intros entry Hbody Hjson. unfold on_post.
    apply String.eqb_neq in Hbody. rewrite Hbody, Hjson.
    eexists. split; [reflexivity|]. repeat split.
    simpl. apply lookup_insert_eq.
Qed.

(** The theorem at a request without body and at a request with the
    document of ["c1"], both from ["10.0.0.5"]. *)
Lemma on_post_empty_or_accepted_witness :
  (on_post json_fixture idle_server
     {| REMOTE_ADDR := "10.0.0.5"; stream := "" |} blank_response
   = ({| store := []; processes := [];
         error_log := ["Empty body provided when returning a command result."] |},
      Raise (HTTPBadRequest "Empty request body"
                            "A valid JSON document is required."))
   ∧ error_status (HTTPBadRequest "Empty request body"
                                  "A valid JSON document is required.")
     = Some "400 Bad Request")
  ∧ ∃ resp' : Response,
      on_post json_fixture idle_server
        {| REMOTE_ADDR := "10.0.0.5"; stream := c1_document |} blank_response
      = ({| store := [];
            processes := [({[ "c1" := [] ]}, "10.0.0.5")];
            error_log := [] |},
         Ok resp')
      ∧ status resp' = "200 OK"
      ∧ body resp' = "{}"
      ∧ headers resp' !! "Content-Type" = Some "application/json".
Proof.
  split.
  - exact (proj1 (on_post_empty_or_accepted json_fixture idle_server
                    {| REMOTE_ADDR := "10.0.0.5"; stream := "" |}
                    blank_response) eq_refl).
  - refine (proj2 (on_post_empty_or_accepted json_fixture idle_server
                     {| REMOTE_ADDR := "10.0.0.5"; stream := c1_document |}
                     blank_response) {[ "c1" := [] ]} _ eq_refl).
    discriminate.
Defined.

(** * Properties of [total_min_max] on integers *)

Lemma int_extremum_min (x : Z) (l : list Z) :
  ∃ m, foldl (extremum_step Z.ltb) None (x :: l) = Some m
       ∧ m ∈ x :: l ∧ ∀ r, r ∈ x :: l → m ≤ r.
Proof.
  destruct (extremum_of_list Z.ltb Z.ltb_irrefl
              (λ a b c Hab Hbc, proj2 (Z.ltb_lt a c)
                 (Z.lt_trans a b c (proj1 (Z.ltb_lt a b) Hab)
                                   (proj1 (Z.ltb_lt b c) Hbc)))
              x l) as (m & Hfold & Hin & Hleast).
  exists m. split; [done|]. split; [done|].
  intros r Hr. apply Hleast in Hr. by apply Z.ltb_ge in Hr.
Qed.

Lemma int_extremum_max (x : Z) (l : list Z) :
  ∃ m, foldl (extremum_step (flip Z.ltb)) None (x :: l) = Some m
       ∧ m ∈ x :: l ∧ ∀ r, r ∈ x :: l → r ≤ m.
Proof.
  destruct (extremum_of_list (flip Z.ltb) Z.ltb_irrefl
              (λ a b c Hab Hbc, proj2 (Z.ltb_lt c a)
                 (Z.lt_trans c b a (proj1 (Z.ltb_lt c b) Hbc)
                                   (proj1 (Z.ltb_lt b a) Hab)))
              x l) as (m & Hfold & Hin & Hgreatest).
  exists m. split; [done|]. split; [done|].
  intros r Hr. apply Hgreatest in Hr. unfold flip in Hr.
  by apply Z.ltb_ge in Hr.
Qed.

Lemma total_min_max_over_components (zero : Z) (stats : list Z)
  (acc : Z * option Z * option Z) :
  foldl (λ acc stat, total_min_max stat acc.1.1 acc.1.2 acc.2) acc stats
  = (foldl Z.add acc.1.1 stats,
     foldl (extremum_step Z.ltb) acc.1.2 stats,
     foldl (extremum_step (flip Z.ltb)) acc.2 stats).
Proof.
  revert acc. induction stats as [|stat stats IH]; intros [[t mn] mx]; [done|].
  cbn [foldl]. rewrite IH. cbn [fst snd]. unfold total_min_max, extremum_step, flip.
  cbn [num_add num_lt int_num].
  f_equal; [f_equal|].
  - destruct mn as [m|]; [|done]. by destruct (stat <? m).
  - destruct mx as [m|]; [|done]. by destruct (m <? stat).
Qed.

Lemma foldl_add_sum (a : Z) (k : list Z) :
  foldl Z.add a k = a + foldr Z.add 0 k.
Proof.
  revert a. induction k as [|y k IH]; intros a; simpl; [lia|].
  rewrite IH. lia.
Qed.

(** Called on each integer of a non-empty list in turn, from the total 0
    and no bound, [total_min_max] ends with the sum of the list, its
    least member and its greatest member. *)
Lemma total_min_max_of_integers (x : Z) (l : list Z) :
  ∃ mn mx : Z,
    total_min_max_over 0 (x :: l) = (foldr Z.add 0 (x :: l), Some mn, Some mx)
    ∧ mn ∈ x :: l ∧ mx ∈ x :: l
    ∧ ∀ r, r ∈ x :: l → mn ≤ r ≤ mx.
Proof.
  destruct (int_extremum_min x l) as (mn & Hmn & Hmn_in & Hmn_least).
  destruct (int_extremum_max x l) as (mx & Hmx & Hmx_in & Hmx_greatest).
  exists mn, mx. unfold total_min_max_over.
  rewrite (total_min_max_over_components 0). cbn [fst snd].
  rewrite Hmn, Hmx. split; [|by auto].
  f_equal. f_equal. rewrite foldl_add_sum. lia.
Qed.

(** With no statistic at all the bounds stay [None]. *)
Lemma total_min_max_of_nothing :
  total_min_max_over 0 [] = (0, None, None).
Proof. reflexivity. Qed.

(** * Properties of [process_diskio] *)

Lemma diskio_loop_value (io_stats : list DiskEntry) (field : string) (total : Z) :
  diskio_loop io_stats field total
  = if decide (Forall (has_field field) io_stats)
    then Ok (total + foldr Z.add 0 (field_value field <$> io_stats))
    else Raise (KeyError field).
Proof.
  revert total. induction io_stats as [|entry rest IH]; intros total.
  { destruct (decide (Forall (has_field field) [])) as [_|Hnot].
    - simpl. f_equal. lia.
    - exfalso. apply Hnot. constructor. }
  cbn [diskio_loop]. unfold getitem.
  destruct (disk_stats entry !! field) as [v|] eqn:Hv.
  - cbn [mbind result_bind rbind]. rewrite IH.
    assert (field_value field entry = v) as Hvalue
      by (unfold field_value; by rewrite Hv).
    destruct (decide (Forall (has_field field) rest)) as [Hrest|Hrest];
      destruct (decide (Forall (has_field field) (entry :: rest))) as [Hall|Hall].
    + rewrite fmap_cons. cbn [foldr]. rewrite Hvalue. f_equal. lia.
    + exfalso. apply Hall. constructor; [|done].
      unfold has_field. rewrite Hv. by eexists.
    + exfalso. apply Hrest. by inversion Hall.
    + done.
  - cbn [mbind result_bind rbind].
    destruct (decide (Forall (has_field field) (entry :: rest))) as [Hall|Hall];
      [|done].
    exfalso. inversion Hall as [|? ? Hhas _]; subst.
    unfold has_field in Hhas. rewrite Hv in Hhas. by destruct Hhas.
Qed.

(** When every entry of [io_service_bytes] has the counter [field],
    [process_diskio] returns the sum of that counter over the entries;
    with no entry the sum is 0. *)
Lemma process_diskio_sum (diskio : gmap string (list DiskEntry))
  (field : string) (io_stats : list DiskEntry) :
  diskio !! "io_service_bytes" = Some io_stats →
  Forall (has_field field) io_stats →
  process_diskio diskio field
  = Ok (foldr Z.add 0 (field_value field <$> io_stats)).
Proof.
  intros Hkey Hall. unfold process_diskio, getitem. rewrite Hkey.
  cbn [mbind result_bind rbind]. rewrite diskio_loop_value.
  by rewrite decide_True.
Qed.

(** The lemma at three devices: the bytes read are 4096 + 100 + 1. *)
Lemma process_diskio_sum_witness :
  process_diskio three_devices "Read" = Ok 4197.
Proof.
  refine (process_diskio_sum three_devices "Read"
            [device 0 4096 512; device 16 100 200; device 32 1 2] eq_refl _).
  repeat constructor; by eexists.
Defined.

(** [process_diskio] returns no partial sum. Statistics without
    [io_service_bytes] raise [KeyError] for that key, and as soon as one
    entry of [io_service_bytes] lacks the counter asked for, the call
    raises [KeyError] for the counter, whatever the other entries hold
    and wherever the entry stands in the list. *)
Lemma process_diskio_errors (diskio : gmap string (list DiskEntry))
  (field : string) :
  (diskio !! "io_service_bytes" = None →
   process_diskio diskio field = Raise (KeyError "io_service_bytes"))
  ∧ (∀ io_stats entry,
        diskio !! "io_service_bytes" = Some io_stats →
        entry ∈ io_stats →
        disk_stats entry !! field = None →
        process_diskio diskio field = Raise (KeyError field)).
Proof.
  unfold process_diskio, getitem. split.
  - by intros ->.
  - intros io_stats entry -> Hin Hnone. cbn [mbind result_bind rbind].
    rewrite diskio_loop_value.
    destruct (decide (Forall (has_field field) io_stats)) as [Hall|Hnot];
      [|done].
    rewrite Forall_forall in Hall. apply Hall in Hin.
    unfold has_field in Hin. rewrite Hnone in Hin. by destruct Hin.
Qed.

(** The lemma at the three devices: no device has a counter [Discard]
    (the last device is the one named here), and statistics without
    [io_service_bytes] have no sum. *)
Lemma process_diskio_errors_witness :
  process_diskio (delete "io_service_bytes" three_devices) "Read"
  = Raise (KeyError "io_service_bytes")
  ∧ process_diskio three_devices "Discard" = Raise (KeyError "Discard").
Proof.
  split.
  - exact (proj1 (process_diskio_errors
                    (delete "io_service_bytes" three_devices) "Read") eq_refl).
  - apply (proj2 (process_diskio_errors three_devices "Discard")
             [device 0 4096 512; device 16 100 200; device 32 1 2]
             (device 32 1 2) eq_refl); [|reflexivity].
    apply elem_of_cons. right. apply elem_of_cons. right.
    apply elem_of_cons. by left.
Defined.

(** The result of [process_diskio] depends on the entries of
    [io_service_bytes] only, and not on their order: statistics that differ
    in [io_serviced] or any other key, or list the same devices in another
    order, give the same sum or the same error. *)
Lemma process_diskio_order_and_other_keys
  (diskio diskio' : gmap string (list DiskEntry)) (field : string)
  (io_stats io_stats' : list DiskEntry) :
  diskio !! "io_service_bytes" = Some io_stats →
  diskio' !! "io_service_bytes" = Some io_stats' →
  io_stats ≡ₚ io_stats' →
  process_diskio diskio field = process_diskio diskio' field.
Proof.
  intros Hkey Hkey' Hperm. unfold process_diskio, getitem.
  rewrite Hkey, Hkey'. cbn [mbind result_bind rbind].
  rewrite !diskio_loop_value.
  assert (foldr Z.add 0 (field_value field <$> io_stats)
          = foldr Z.add 0 (field_value field <$> io_stats')) as ->.
  { apply (foldr_permutation (=) Z.add 0).
    - intros a b c. lia.
    - by apply fmap_Permutation. }
  destruct (decide (Forall (has_field field) io_stats)) as [Hall|Hnot].
  - rewrite decide_True; [done|]. by rewrite <- Hperm.
  - rewrite decide_False; [done|]. by rewrite <- Hperm.
Qed.

(** The lemma at the three devices listed backwards, without
    [io_serviced]. *)
Lemma process_diskio_order_and_other_keys_witness :
  process_diskio three_devices "Write"
  = process_diskio
      {[ "io_service_bytes" :=
           [device 32 1 2; device 16 100 200; device 0 4096 512] ]} "Write".
Proof.
  refine (process_diskio_order_and_other_keys three_devices
            {[ "io_service_bytes" :=
                 [device 32 1 2; device 16 100 200; device 0 4096 512] ]} "Write"
            [device 0 4096 512; device 16 100 200; device 32 1 2]
            [device 32 1 2; device 16 100 200; device 0 4096 512]
            eq_refl eq_refl _).
  change ([device 0 4096 512; device 16 100 200; device 32 1 2]
          ≡ₚ reverse [device 0 4096 512; device 16 100 200; device 32 1 2]).
  symmetry. apply reverse_Permutation.
Defined.

(** * Properties of the loop over the containers *)

Lemma remove_from_no_slash (skip : nat) (s : string) :
  str_mem "/" (remove_from "/" skip s) = false.
Proof.
  revert skip. induction s as [|c s IH]; intros skip; [done|].
  cbn [remove_from]. destruct skip as [|n]; [|apply IH].
  change (startswith "/" (String c s))
    with (if Ascii.eqb "/" c then startswith "" s else false).
  destruct (Ascii.eqb "/" c) eqn:Hc.
  - apply IH.
  - cbn [str_mem]. rewrite Hc. apply IH.
Qed.

Lemma matching_alias_no_slash (match_container_name : option Matcher)
  (value : MachineEntry) (names : list string) (name : string) :
  matching_alias match_container_name value names = Ok (Some name) →
  str_mem "/" name = false.
Proof.
  induction names as [|alias names IH]; [done|]. cbn [matching_alias].
  destruct (call_match match_container_name (str_remove "/" alias) value)
    as [[|]|e]; cbn [mbind result_bind rbind]; [|done|done].
  intros [= <-]. apply remove_from_no_slash.
Qed.

(** The search for a matching alias stops at the first alias the filter
    accepts: the name it returns is that alias without its slashes, the
    aliases before it were rejected, and the ones after it are not tried.
    It returns [None] exactly when the filter rejects every alias. *)
Lemma matching_alias_first_match (match_container_name : option Matcher)
  (value : MachineEntry) (names : list string) :
  (∀ name,
      matching_alias match_container_name value names = Ok (Some name) ↔
      ∃ before alias after,
        names = before ++ alias :: after
        ∧ name = str_remove "/" alias
        ∧ call_match match_container_name name value = Ok true
        ∧ Forall (λ a, call_match match_container_name
                         (str_remove "/" a) value = Ok false) before)
  ∧ (matching_alias match_container_name value names = Ok None ↔
     Forall (λ a, call_match match_container_name
                    (str_remove "/" a) value = Ok false) names).
Proof.
  induction names as [|alias names (IHsome & IHnone)].
  { split.
    - intros name. split; [done|].
      intros (before & a & after & Happ & _). by destruct before.
    - split; [constructor | done]. }
  cbn [matching_alias].
  destruct (call_match match_container_name (str_remove "/" alias) value)
    as [[|]|e] eqn:Hcall; cbn [mbind result_bind rbind].
  - split.
    + intros name. split.
      * intros [= <-]. exists [], alias, names. repeat split; [done|constructor].
      * intros (before & a & after & Happ & -> & Hacc & Hrej).
        destruct before as [|b before].
        -- by injection Happ as -> _.
        -- injection Happ as -> _. inversion Hrej; congruence.
    + split; [done|]. intros Hall. inversion Hall; congruence.
  - split.
    + intros name. rewrite IHsome. split.
      * intros (before & a & after & -> & -> & Hacc & Hrej).
        exists (alias :: before), a, after. repeat split; [done|by constructor].
      * intros (before & a & after & Happ & -> & Hacc & Hrej).
        destruct before as [|b before].
        -- injection Happ as -> _. congruence.
        -- injection Happ as -> ->. inversion Hrej; subst.
           exists before, a, after. by repeat split.
    + rewrite IHnone. split; [by constructor | by inversion 1].
  - split.
    + intros name. split; [done|].
      intros (before & a & after & Happ & -> & Hacc & Hrej).
      destruct before as [|b before].
      * injection Happ as -> _. congruence.
      * injection Happ as -> _. inversion Hrej; congruence.
    + split; [done|]. intros Hall. inversion Hall; congruence.
Qed.

Section ContainerLoop.
Context {F : Type} `{PyFloat F}.
Variable epoch_seconds : string → result Z.

(** What [container_records] does with each kind of series: a series
    recorded as [None] raises [TypeError], an empty series raises
    [IndexError], a first timestamp that does not parse raises the
    parser's exception, and every other series gives three records. *)
Lemma container_records_cases (container_name : string) (value : MachineEntry) :
  (stats value = None →
   container_records (F:=F) epoch_seconds container_name value
   = Raise (TypeError "'NoneType' object is not subscriptable"))
  ∧ (stats value = Some [] →
     container_records (F:=F) epoch_seconds container_name value
     = Raise (IndexError "list index out of range"))
  ∧ (∀ first rest e,
        stats value = Some (first :: rest) →
        epoch_seconds (read first) = Raise e →
        container_records (F:=F) epoch_seconds container_name value = Raise e)
  ∧ (∀ first rest ts,
        stats value = Some (first :: rest) →
        epoch_seconds (read first) = Ok ts →
        ∃ cpu mem net : Metric (pyval F),
          container_records epoch_seconds container_name value
          = Ok [cpu; mem; net]).
Proof.
  destruct value as [als series]. cbn [stats].
  split; [|split; [|split]].
  - intros ->. reflexivity.
  - intros ->. reflexivity.
  - intros first rest e -> He.
    unfold container_records, stats_subscript. cbn [stats subscript].
    simpl. by rewrite He.
  - intros first rest ts -> Hts.
    destruct (last (first :: rest)) as [last_stat|] eqn:Hlast.
    2: { by apply last_None in Hlast. }
    eexists _, _, _. by eapply container_records_eq.
Qed.

Lemma aggregate_entry_ok_iff (match_container_name : option Matcher)
  (value : MachineEntry) (payload : gmap string (list (Metric (pyval F)))) :
  (∃ payload', aggregate_entry epoch_seconds match_container_name value payload
               = Ok payload')
  ↔ gets_through epoch_seconds match_container_name value.
Proof.
  unfold aggregate_entry, gets_through.
  destruct (matching_alias match_container_name value (aliases value))
    as [[name|]|e]; cbn [mbind result_bind rbind].
  - destruct (container_records_cases name value) as (Hnone & Hnil & Herr & Hok).
    split.
    + intros [payload' Hagg]. right.
      destruct (stats value) as [[|first rest]|] eqn:Hstats.
      * rewrite Hnil in Hagg by done. discriminate.
      * destruct (epoch_seconds (read first)) as [ts|e] eqn:Hts.
        -- by exists name, (first :: rest), first, ts.
        -- rewrite (Herr first rest e) in Hagg by done. discriminate.
      * rewrite Hnone in Hagg by done. discriminate.
    + intros [[=]|(n & series & first & ts & [= <-] & Hstats & Hhead & Hts)].
      destruct series as [|s rest]; [discriminate|]. injection Hhead as ->.
      destruct (Hok first rest ts Hstats Hts) as (cpu & mem & net & ->).
      by eexists.
  - split; [by left | by eexists].
  - split; [by intros [? [=]] | by intros [[=]|(? & ? & ? & ? & [=] & _)]].
Qed.

(** For samples that carry the counters read, the aggregation of a
    cycle succeeds exactly when the loop gets through every container: the filter raises for none, and every
    container with a matching alias has a series that is not [None], not
    empty, and starts with a timestamp that parses. A container without
    matching alias is skipped whatever its series is. *)
Lemma aggregation_succeeds_iff (match_container_name : option Matcher)
  (items : list (string * MachineEntry))
  (payload : gmap string (list (Metric (pyval F)))) :
  (∃ payload', aggregate_loop epoch_seconds match_container_name items payload
               = Ok payload')
  ↔ Forall (λ kv, gets_through epoch_seconds match_container_name kv.2) items.
Proof.
  revert payload. induction items as [|[key value] items IH]; intros payload.
  { split; [constructor | by eexists]. }
  cbn [aggregate_loop]. split.
  - intros [payload' Hloop].
    destruct (aggregate_entry epoch_seconds match_container_name value payload)
      as [payload1|e] eqn:Hentry; [|discriminate].
    constructor.
    + apply (aggregate_entry_ok_iff _ _ payload). by eexists.
    + apply (IH payload1). by eexists.
  - intros Hall. inversion Hall as [|? ? Hvalue Hrest]; subst.
    apply (aggregate_entry_ok_iff _ _ payload) in Hvalue as [payload1 Hentry].
    cbn [snd] in Hentry. rewrite Hentry. by apply IH.
Qed.
End ContainerLoop.

Section DockerCycle.
Context {F : Type} `{PyFloat F}.
Variable epoch_seconds : string → result Z.
Variable http_post : string → gmap string (list (Metric (pyval F))) → result unit.


Lemma container_records_shape (container_name : string) (value : MachineEntry)
  (records : list (Metric (pyval F))) :
  container_records epoch_seconds container_name value = Ok records →
  measurement <$> records = ["cpu.usage"; "memory.usage"; "network.usage"]
  ∧ Forall (λ r, tags r = {[ "container_name" := container_name ]}) records.
Proof.
  destruct (container_records_cases (F:=F) epoch_seconds container_name value)
    as (Hnone & Hnil & Herr & _).
  destruct value as [als [[|first rest]|]]; cbn [stats] in *.
  - by rewrite Hnil.
  - destruct (epoch_seconds (read first)) as [ts|e] eqn:Hts.
    + destruct (last (first :: rest)) as [last_stat|] eqn:Hlast.
      2: { by apply last_None in Hlast. }
      rewrite (container_records_eq epoch_seconds container_name als
                 (first :: rest) first last_stat ts eq_refl Hlast Hts).
      intros [= <-]. split; [done | by repeat constructor].
    + by rewrite (Herr first rest e).
  - by rewrite Hnone.
Qed.

Lemma aggregate_entry_keys (match_container_name : option Matcher)
  (value : MachineEntry) (payload payload' : gmap string (list (Metric (pyval F)))) :
  aggregate_entry epoch_seconds match_container_name value payload = Ok payload' →
  ∀ n, is_Some (payload' !! n) ↔
       is_Some (payload !! n) ∨ matched_name match_container_name value = Some n.
Proof.
  unfold aggregate_entry, matched_name.
  destruct (matching_alias match_container_name value (aliases value))
    as [[name|]|e]; cbn [mbind result_bind rbind]; [| |done].
  - destruct (container_records epoch_seconds name value) as [records|e];
      cbn [mbind result_bind rbind]; [|done].
    intros [= <-] n. rewrite lookup_insert_is_Some. split.
    + intros [->|[_ Hn]]; [by right | by left].
    + intros [Hn|[= ->]]; [|by left].
      destruct (decide (name = n)); [by left | by right].
  - intros [= <-] n. split; [by left | by intros [?|[=]]].
Qed.

Lemma aggregate_loop_keys (match_container_name : option Matcher)
  (items : list (string * MachineEntry))
  (payload payload' : gmap string (list (Metric (pyval F)))) :
  aggregate_loop epoch_seconds match_container_name items payload = Ok payload' →
  ∀ n, is_Some (payload' !! n) ↔
       is_Some (payload !! n)
       ∨ ∃ kv, kv ∈ items ∧ matched_name match_container_name kv.2 = Some n.
Proof.
  revert payload. induction items as [|[key value] items IH]; intros payload.
  { intros [= <-] n. split; [by left|].
    intros [?|(kv & Hin & _)]; [done|]. by apply elem_of_nil in Hin. }
  cbn [aggregate_loop].
  destruct (aggregate_entry epoch_seconds match_container_name value payload)
    as [payload1|e] eqn:Hentry; cbn [mbind result_bind rbind]; [|done].
  intros Hloop n. rewrite (IH _ Hloop n), (aggregate_entry_keys _ _ _ _ Hentry n).
  split.
  - intros [[Hn|Hm]|(kv & Hin & Hm)].
    + by left.
    + right. exists (key, value). split; [apply elem_of_cons; by left | done].
    + right. exists kv. split; [apply elem_of_cons; by right | done].
  - intros [Hn|(kv & Hin & Hm)]; [by left; left|].
    apply elem_of_cons in Hin as [->|Hin].
    + left. by right.
    + right. by exists kv.
Qed.

Lemma aggregate_loop_records (match_container_name : option Matcher)
  (items : list (string * MachineEntry))
  (payload payload' : gmap string (list (Metric (pyval F))))
  (P : string → list (Metric (pyval F)) → Prop) :
  (∀ n value records,
      container_records epoch_seconds n value = Ok records → P n records) →
  aggregate_loop epoch_seconds match_container_name items payload = Ok payload' →
  (∀ n records, payload !! n = Some records → P n records) →
  ∀ n records, payload' !! n = Some records → P n records.
Proof.
  intros HP. revert payload. induction items as [|[key value] items IH];
    intros payload.
  { by intros [= <-]. }
  cbn [aggregate_loop]. unfold aggregate_entry.
  destruct (matching_alias match_container_name value (aliases value))
    as [[name|]|e]; cbn [mbind result_bind rbind]; [| |done].
  - destruct (container_records epoch_seconds name value) as [records|e]
      eqn:Hrec; cbn [mbind result_bind rbind]; [|done].
    intros Hloop Hpayload. apply (IH _ Hloop).
    intros n rs. destruct (decide (name = n)) as [->|Hne].
    + rewrite lookup_insert_eq. intros [= <-]. by eapply HP.
    + rewrite lookup_insert_ne by done. apply Hpayload.
  - apply IH.
Qed.

(** One container the loop does not get through leaves the cycle
    without any post, also for the other containers: the filter raises
    for one of its aliases, or one of its aliases matches and its series
    is [None], is empty, or starts with a timestamp that does not
    parse. *)
Lemma stuck_container_posts_nothing (match_container_name : option Matcher)
  (endpoint : string) (docker_client : DockerClient)
  (key : string) (value : MachineEntry) :
  run_processes docker_client 60 !! key = Some value →
  ¬ gets_through epoch_seconds match_container_name value →
  ∃ e,
    get_dockerstats_metrics epoch_seconds http_post match_container_name
      endpoint docker_client
    = {| posted := []; outcome := Raise e |}.
Proof.
  intros Hlookup Hstuck. unfold get_dockerstats_metrics.
  destruct (aggregate_loop epoch_seconds match_container_name
              (map_to_list (run_processes docker_client 60)) ∅)
    as [payload|e] eqn:Hloop; [|by eexists].
  destruct Hstuck.
  assert (Hall : Forall (λ kv, gets_through epoch_seconds
                                 match_container_name kv.2)
                   (map_to_list (run_processes docker_client 60))).
  { apply (aggregation_succeeds_iff epoch_seconds match_container_name _ ∅).
    by eexists. }
  rewrite Forall_forall in Hall.
  apply elem_of_map_to_list in Hlookup. by apply Hall in Hlookup.
Qed.
End DockerCycle.

(** The lemma at a docker client with a healthy container and one whose
    first sample has a timestamp that does not parse. *)
Lemma stuck_container_posts_nothing_witness :
  ∃ e,
    get_dockerstats_metrics epoch_fixture post_fixture (Some match_all)
      collector_url one_garbled_container
    = {| posted := []; outcome := Raise e |}.
Proof.
  refine (stuck_container_posts_nothing epoch_fixture post_fixture
            (Some match_all) collector_url one_garbled_container "ddd"
            {| aliases := ["/late"]; stats := Some [garbled_sample; sample_1] |}
            eq_refl _).
  intros [Hnone|(name & series & first & ts & _ & Hseries & Hhead & Hts)].
  - discriminate Hnone.
  - injection Hseries as <-. injection Hhead as <-. discriminate Hts.
Defined.

Section PostedDocument.
Context {F : Type} `{PyFloat F}.
Variable epoch_seconds : string → result Z.
Variable http_post : string → gmap string (list (Metric (pyval F))) → result unit.

(** The document a cycle posts goes to the endpoint and has one key for
    every name under which a container of [machine_stats] matched, and no
    other key; no key contains a slash; under each key are the three
    records [cpu.usage], [memory.usage], [network.usage], all tagged with
    that key as [container_name]. Two containers matching under the same
    name share one key. *)
Lemma posted_document_keys_and_records (match_container_name : option Matcher)
  (endpoint : string) (docker_client : DockerClient)
  (url : string) (payload : gmap string (list (Metric (pyval F)))) :
  posted (get_dockerstats_metrics epoch_seconds http_post match_container_name
            endpoint docker_client) = [(url, payload)] →
  url = endpoint
  ∧ (∀ n, is_Some (payload !! n) ↔
          ∃ key value,
            run_processes docker_client 60 !! key = Some value
            ∧ matched_name match_container_name value = Some n)
  ∧ (∀ n records,
        payload !! n = Some records →
        str_mem "/" n = false
        ∧ measurement <$> records
          = ["cpu.usage"; "memory.usage"; "network.usage"]
        ∧ Forall (λ r, tags r = {[ "container_name" := n ]}) records).
Proof.
  unfold get_dockerstats_metrics, send.
  destruct (aggregate_loop epoch_seconds match_container_name
              (map_to_list (run_processes docker_client 60)) ∅)
    as [payload0|e] eqn:Hloop; [|done].
  cbn [posted]. intros [= <- <-].
  pose proof (aggregate_loop_keys _ _ _ _ _ Hloop) as Hkeys.
  assert (Hdom : ∀ n, is_Some (payload0 !! n) ↔
                      ∃ key value,
                        run_processes docker_client 60 !! key = Some value
                        ∧ matched_name match_container_name value = Some n).
  { intros n. rewrite Hkeys. split.
    - intros [Hn|([key value] & Hin & Hm)].
      + rewrite lookup_empty in Hn. by destruct Hn.
      + exists key, value. split; [by apply elem_of_map_to_list | done].
    - intros (key & value & Hlookup & Hm). right. exists (key, value).
      split; [by apply elem_of_map_to_list | done]. }
  split; [done|]. split; [done|].
  intros n records Hn. split.
  - destruct (proj1 (Hdom n) (mk_is_Some _ _ Hn)) as (key & value & _ & Hm).
    unfold matched_name in Hm.
    destruct (matching_alias match_container_name value (aliases value))
      as [[name|]|e] eqn:Hmatch; [|done|done].
    injection Hm as ->. by eapply matching_alias_no_slash.
  - revert n records Hn.
    apply (aggregate_loop_records epoch_seconds match_container_name
             (map_to_list (run_processes docker_client 60)) ∅ payload0
             (λ n records,
                measurement <$> records
                = ["cpu.usage"; "memory.usage"; "network.usage"]
                ∧ Forall (λ r, tags r = {[ "container_name" := n ]}) records)).
    + intros n value records. apply container_records_shape.
    + done.
    + intros n records. by rewrite lookup_empty.
Qed.
End PostedDocument.

Lemma posted_document_keys_and_records_witness :
  ∃ payload : gmap string (list (Metric (pyval float))),
    posted (get_dockerstats_metrics epoch_fixture post_fixture (Some match_all)
              collector_url two_healthy_containers)
    = [(collector_url, payload)]
    ∧ is_Some (payload !! "web") ∧ is_Some (payload !! "db")
    ∧ ∀ n records,
        payload !! n = Some records →
        str_mem "/" n = false
        ∧ measurement <$> records
          = ["cpu.usage"; "memory.usage"; "network.usage"]
        ∧ Forall (λ r, tags r = {[ "container_name" := n ]}) records.
Proof.
  eexists. split; [vm_compute; reflexivity|].
  split; [vm_compute; eauto|]. split; [vm_compute; eauto|].
  eapply (posted_document_keys_and_records epoch_fixture post_fixture
            (Some match_all) collector_url two_healthy_containers
            collector_url).
  vm_compute. reflexivity.
Defined.

(** * Properties of the sampling processes *)

Lemma run_processes_step_other (docker_client : DockerClient) (interval : Z)
  (cs : list Container) (m : gmap string MachineEntry) (id : string) :
  id ∉ Id <$> cs →
  foldl (fun machine_stats container =>
           get_stats_from_daemon
             (client_stats docker_client (Id container))
             (Id container) (Names container) machine_stats interval)
        m cs !! id
  = m !! id.
Proof.
  revert m. induction cs as [|c cs IH]; intros m Hnot; [done|].
  cbn [foldl]. rewrite fmap_cons, not_elem_of_cons in Hnot.
  destruct Hnot as [Hne Hnot]. rewrite IH by done.
  unfold get_stats_from_daemon. by rewrite lookup_insert_ne.
Qed.

Lemma run_processes_step_keys (docker_client : DockerClient) (interval : Z)
  (cs : list Container) (m : gmap string MachineEntry) (id : string) :
  is_Some (foldl (fun machine_stats container =>
                    get_stats_from_daemon
                      (client_stats docker_client (Id container))
                      (Id container) (Names container) machine_stats interval)
                 m cs !! id)
  ↔ is_Some (m !! id) ∨ id ∈ Id <$> cs.
Proof.
  revert m. induction cs as [|c cs IH]; intros m.
  { cbn [foldl]. rewrite fmap_nil. split; [by left|].
    intros [?|Hin]; [done|]. by apply elem_of_nil in Hin. }
  cbn [foldl]. rewrite IH, fmap_cons, elem_of_cons.
  unfold get_stats_from_daemon. rewrite lookup_insert_is_Some.
  split.
  - intros [[->|[_ Hm]]|Hin]; [right; by left | by left | right; by right].
  - intros [Hm|[->|Hin]]; [|left; by left | by right].
    left. destruct (decide (Id c = id)); [by left | by right].
Qed.

Lemma run_processes_lookup (docker_client : DockerClient) (interval : Z) :
  NoDup (Id <$> containers docker_client) →
  ∀ container,
    container ∈ containers docker_client →
    run_processes docker_client interval !! Id container
    = get_stats_from_daemon
        (client_stats docker_client (Id container))
        (Id container) (Names container) ∅ interval !! Id container.
Proof.
  unfold run_processes.
  generalize (∅ : gmap string MachineEntry) at 1.
  induction (containers docker_client) as [|c cs IH]; intros m Hnodup x Hin.
  { by apply elem_of_nil in Hin. }
  rewrite fmap_cons in Hnodup. apply NoDup_cons in Hnodup as [Hnot Hnodup].
  cbn [foldl]. apply elem_of_cons in Hin as [->|Hin].
  - rewrite run_processes_step_other by done.
    unfold get_stats_from_daemon. by rewrite !lookup_insert_eq.
  - by apply IH.
Qed.

(** [machine_stats] has an entry for every container the docker client
    lists, also for one whose stream breaks or is empty, and for nothing
    else. When the ids are distinct, the entry of a container is the one
    its own process stores: its [Names] and the series of its own
    stream, whatever the other containers' processes do. *)
Lemma run_processes_entries (docker_client : DockerClient) (interval : Z) :
  (∀ id,
      is_Some (run_processes docker_client interval !! id)
      ↔ id ∈ Id <$> containers docker_client)
  ∧ (NoDup (Id <$> containers docker_client) →
     ∀ container,
       container ∈ containers docker_client →
       run_processes docker_client interval !! Id container
       = get_stats_from_daemon
           (client_stats docker_client (Id container))
           (Id container) (Names container) ∅ interval !! Id container).
Proof.
  unfold run_processes. split.
  - intros id. rewrite run_processes_step_keys, lookup_empty. split.
    + intros [Hn|?]; [by destruct Hn | done].
    + by right.
  - apply run_processes_lookup.
Qed.

Lemma collect_loop_prefix (stats_obj : list Tick) (collected_stats : list Stat)
  (interval end_time : Z) (series : list Stat) :
  collect_loop stats_obj collected_stats interval end_time = Ok series →
  ∃ docs : list AllStats,
    series = collected_stats ++ (wanted <$> docs)
    ∧ chunk <$> take (length docs) stats_obj = Ok <$> docs
    ∧ (length docs = length stats_obj
       ∨ interval ≤ Z.of_nat (length series)
       ∨ ∃ tick, last (take (length docs) stats_obj) = Some tick
                 ∧ end_time ≤ clock tick).
Proof.
  revert collected_stats.
  induction stats_obj as [|container_stat rest IH]; intros collected_stats.
  { intros [= <-]. exists []. rewrite app_nil_r. by repeat split; [left]. }
  cbn [collect_loop]. destruct (chunk container_stat) as [all_stats|e] eqn:Hchunk;
    cbn [mbind result_bind rbind]; [|done].
  unfold select_wanted.
  destruct (interval <=? Z.of_nat (length (collected_stats ++ [wanted all_stats])))
    eqn:Hfull; cbn [orb].
  - intros [= <-]. exists [all_stats]. split; [done|].
    split; [cbn; by rewrite Hchunk|]. right. left. by apply Z.leb_le.
  - destruct (end_time <=? clock container_stat) eqn:Hend.
    + intros [= <-]. exists [all_stats]. split; [done|].
      split; [cbn; by rewrite Hchunk|]. right. right.
      exists container_stat. split; [by destruct rest | by apply Z.leb_le].
    + intros Hloop. destruct (IH _ Hloop) as (docs & -> & Hdocs & Hstop).
      exists (all_stats :: docs). split; [by rewrite <- app_assoc|].
      split; [cbn; by rewrite Hchunk, Hdocs|].
      destruct Hstop as [Hlen|[Hint|(tick & Hlast & Hclock)]].
      * left. cbn. by rewrite Hlen.
      * right. left. exact Hint.
      * right. right. exists tick. split; [|done].
        cbn [length take]. destruct docs as [|d docs]; [done|].
        cbn [length] in *. destruct rest as [|t rest]; [done|].
        exact Hlast.
Qed.

(** The series stored for a container is the wanted part of the first
    documents of its stream, in their order and none left out, and the
    sampling stops for one of three reasons only: the stream ended, the
    series has as many samples as the window has seconds, or the clock
    read after the last document has reached the end of the window. *)
Lemma stored_series_is_stream_prefix (stats_obj : StatsObj)
  (container_id : string) (container_aliases : list string)
  (machine_stats : gmap string MachineEntry) (interval : Z)
  (series : list Stat) :
  stats <$> (get_stats_from_daemon stats_obj container_id container_aliases
               machine_stats interval !! container_id)
  = Some (Some series) →
  ∃ docs : list AllStats,
    series = wanted <$> docs
    ∧ chunk <$> take (length docs) (ticks stats_obj) = Ok <$> docs
    ∧ (length docs = length (ticks stats_obj)
       ∨ interval ≤ Z.of_nat (length series)
       ∨ ∃ tick, last (take (length docs) (ticks stats_obj)) = Some tick
                 ∧ started stats_obj + interval ≤ clock tick).
Proof.
  unfold get_stats_from_daemon. rewrite lookup_insert_eq. cbn.
  destruct (collect_loop (ticks stats_obj) [] interval
              (started stats_obj + interval)) as [l|e] eqn:Hloop; [|done].
  intros [= <-]. by apply collect_loop_prefix in Hloop.
Qed.

Lemma stored_series_is_stream_prefix_witness :
  ∃ docs : list AllStats,
    [sample_0; sample_1] = wanted <$> docs
    ∧ chunk <$> take (length docs) (ticks healthy_stream) = Ok <$> docs
    ∧ (length docs = length (ticks healthy_stream)
       ∨ 60 ≤ Z.of_nat (length [sample_0; sample_1])
       ∨ ∃ tick, last (take (length docs) (ticks healthy_stream)) = Some tick
                 ∧ started healthy_stream + 60 ≤ clock tick).
Proof.
  exact (stored_series_is_stream_prefix healthy_stream "bbb" ["/db"] ∅ 60
           [sample_0; sample_1] eq_refl).
Defined.

(** * The filter policies inside the loop *)

(** Under [match_all] a container is filed under its first alias, slashes
    removed, and a container without alias is skipped. The two other
    filters skip every container that has the alias [sender], whatever
    its other aliases are; the test reads the aliases as they are, with
    their slashes. [match_all_but_sender] files every other container
    under its first alias. *)
Lemma names_under_the_policies (value : MachineEntry) :
  matched_name (Some match_all) value = str_remove "/" <$> head (aliases value)
  ∧ ("sender" ∈ aliases value →
     matched_name (Some match_on_uuid) value = None
     ∧ matched_name (Some match_all_but_sender) value = None)
  ∧ ("sender" ∉ aliases value →
     matched_name (Some match_all_but_sender) value
     = str_remove "/" <$> head (aliases value)).
Proof.
  unfold matched_name. split; [|split].
  - by destruct (aliases value).
  - intros Hin.
    assert (Huuid : ∀ names, matching_alias (Some match_on_uuid) value names
                             = Ok None).
    { induction names as [|a names IH]; [done|]. cbn [matching_alias call_match].
      unfold match_on_uuid. by rewrite bool_decide_eq_true_2. }
    assert (Hsender : ∀ names,
               matching_alias (Some match_all_but_sender) value names = Ok None).
    { induction names as [|a names IH]; [done|]. cbn [matching_alias call_match].
      unfold match_all_but_sender. by rewrite bool_decide_eq_true_2. }
    by rewrite Huuid, Hsender.
  - intros Hnot. destruct (aliases value) as [|a names] eqn:Hal; [done|].
    cbn [matching_alias call_match]. unfold match_all_but_sender.
    rewrite <- Hal in Hnot. by rewrite bool_decide_eq_false_2.
Qed.

(** The alias [/sender], as the docker daemon lists names, is not the
    alias [sender]. *)
Lemma names_under_the_policies_witness :
  matched_name (Some match_all_but_sender)
    {| aliases := ["/sender"]; stats := None |} = Some "sender"
  ∧ matched_name (Some match_all_but_sender)
      {| aliases := ["/web"; "sender"]; stats := None |} = None.
Proof.
  split.
  - refine (proj2 (proj2 (names_under_the_policies
                            {| aliases := ["/sender"]; stats := None |})) _).
    apply (bool_decide_unpack _). by vm_compute.
  - refine (proj2 (proj1 (proj2 (names_under_the_policies
                            {| aliases := ["/web"; "sender"]; stats := None |})) _)).
    apply (bool_decide_unpack _). by vm_compute.
Defined.

(** * Cycles that post nothing *)

Section EdgeCycles.
Context {F : Type} `{PyFloat F}.
Variable epoch_seconds : string → result Z.
Variable http_post : string → gmap string (list (Metric (pyval F))) → result unit.

(** A container whose stream ends before its first document is recorded
    with an empty series. When one of its names matches, the cycle posts
    nothing, for any container: the aggregation reads the first sample of
    the empty series. *)
Lemma empty_stream_posts_nothing (match_container_name : option Matcher)
  (endpoint : string) (docker_client : DockerClient)
  (container : Container) (name : string) :
  NoDup (Id <$> containers docker_client) →
  container ∈ containers docker_client →
  ticks (client_stats docker_client (Id container)) = [] →
  matched_name match_container_name
    {| aliases := Names container; stats := Some [] |} = Some name →
  run_processes docker_client 60 !! Id container
  = Some {| aliases := Names container; stats := Some [] |}
  ∧ ∃ e,
      get_dockerstats_metrics epoch_seconds http_post match_container_name
        endpoint docker_client
      = {| posted := []; outcome := Raise e |}.
Proof.
  intros Hnodup Hin Hticks Hmatch.
  assert (Hlookup : run_processes docker_client 60 !! Id container
                    = Some {| aliases := Names container; stats := Some [] |}).
  { rewrite (run_processes_lookup docker_client 60 Hnodup container Hin).
    unfold get_stats_from_daemon. by rewrite Hticks, lookup_insert_eq. }
  split; [done|].
  unfold get_dockerstats_metrics.
  destruct (aggregate_loop epoch_seconds match_container_name
              (map_to_list (run_processes docker_client 60)) ∅)
    as [payload|e] eqn:Hloop; [|by eexists].
  exfalso.
  assert (Hall : Forall (λ kv, gets_through epoch_seconds
                                 match_container_name kv.2)
                   (map_to_list (run_processes docker_client 60))).
  { apply (aggregation_succeeds_iff epoch_seconds match_container_name _ ∅).
    by eexists. }
  rewrite Forall_forall in Hall.
  apply elem_of_map_to_list in Hlookup. apply Hall in Hlookup.
  unfold matched_name in Hmatch. unfold gets_through in Hlookup.
  cbn [snd aliases stats] in *.
  destruct Hlookup as [Hnone|(n & series & first & ts & _ & [= <-] & [=] & _)].
  by rewrite Hnone in Hmatch.
Qed.

Lemma aggregate_loop_unbound (items : list (string * MachineEntry))
  (payload : gmap string (list (Metric (pyval F)))) :
  aggregate_loop epoch_seconds None items payload
  = if decide (Forall (λ kv, aliases kv.2 = []) items) then Ok payload
    else Raise (NameError "match_container_name").
Proof.
  induction items as [|[key value] items IH].
  { cbn [aggregate_loop]. by destruct (decide _) as [?|[]]. }
  cbn [aggregate_loop]. unfold aggregate_entry.
  destruct (aliases value) as [|a names] eqn:Hal.
  - cbn [matching_alias mbind result_bind rbind]. rewrite IH.
    destruct (decide (Forall (λ kv, aliases kv.2 = []) items)) as [Hall|Hnot];
      destruct (decide (Forall (λ kv, aliases kv.2 = [])
                          ((key, value) :: items))) as [Hall'|Hnot'];
      try done.
    + destruct Hnot'. by constructor.
    + destruct Hnot. by inversion Hall'.
  - cbn [matching_alias call_match mbind result_bind rbind].
    destruct (decide (Forall (λ kv, aliases kv.2 = [])
                        ((key, value) :: items))) as [Hall|?]; [|done].
    inversion Hall as [|? ? Hv]; subst. cbn [snd] in Hv. congruence.
Qed.

(** A value of [MATCH_TYPE] other than [ALL], [UUID] and [NO_CADVISOR]
    leaves [match_container_name] unbound. The cycle then ends with
    [NameError] and posts nothing as soon as one container has a name;
    it posts the empty document when none has. *)
Lemma unbound_filter_cycle (endpoint : string) (docker_client : DockerClient) :
  (∀ match_type_name : string,
      match_type_name ≠ "ALL" → match_type_name ≠ "UUID" →
      match_type_name ≠ "NO_CADVISOR" →
      select_match_container_name match_type_name = Ok None)
  ∧ get_dockerstats_metrics epoch_seconds http_post None endpoint docker_client
    = if decide (Forall (λ kv, aliases kv.2 = [])
                   (map_to_list (run_processes docker_client 60)))
      then {| posted := [(endpoint, ∅)]; outcome := http_post endpoint ∅ |}
      else {| posted := [];
              outcome := Raise (NameError "match_container_name") |}.
Proof.
  split.
  - intros m Hall Huuid Hno. unfold select_match_container_name.
    apply String.eqb_neq in Hall, Huuid, Hno. by rewrite Hall, Huuid, Hno.
  - unfold get_dockerstats_metrics. rewrite aggregate_loop_unbound.
    by destruct (decide _).
Qed.
End EdgeCycles.

Lemma empty_stream_posts_nothing_witness :
  run_processes one_silent_container 60 !! "ccc"
  = Some {| aliases := ["/idle"]; stats := Some [] |}
  ∧ ∃ e,
      get_dockerstats_metrics epoch_fixture post_fixture (Some match_all)
        collector_url one_silent_container
      = {| posted := []; outcome := Raise e |}.
Proof.
  refine (empty_stream_posts_nothing epoch_fixture post_fixture (Some match_all)
            collector_url one_silent_container
            {| Id := "ccc"; Names := ["/idle"] |} "idle" _ _ eq_refl eq_refl).
  - apply (bool_decide_unpack _). by vm_compute.
  - apply elem_of_cons. right. apply elem_of_cons. by left.
Defined.

(** * The cadvisor source *)

Lemma remove_from_without_slash (s : string) :
  str_mem "/" s = false → str_remove "/" s = s.
Proof.
  unfold str_remove. induction s as [|c s IH]; [done|].
  cbn [str_mem remove_from].
  change (startswith "/" (String c s))
    with (if Ascii.eqb "/" c then startswith "" s else false).
  destruct (Ascii.eqb "/" c); [done|]. intros Hs. by rewrite IH.
Qed.

Section CadvisorSource.
Context {F : Type} `{PyFloat F}.
Variable epoch_seconds : string → result Z.
Variable http_post : string → gmap string (list (Metric (pyval F))) → result unit.
Variable http_get_json : string → result (gmap string Cadvisor.Entry).

Lemma cadvisor_memory_totals (stats : list Cadvisor.Stat) (t t' : Totals (F:=F)) :
  total_memory t = total_memory t' →
  min_memory t = min_memory t' →
  max_memory t = max_memory t' →
  memory_usage_fields (foldl cadvisor_totals_step t stats)
    (Z.of_nat (length stats))
  = memory_usage_fields (foldl totals_step t' (docker_view <$> stats))
      (Z.of_nat (length (docker_view <$> stats))).
Proof.
  rewrite length_fmap. generalize (Z.of_nat (length stats)). intros n.
  revert t t'. induction stats as [|stat stats IH]; intros t t' Htotal Hmin Hmax.
  { cbn [foldl fmap list_fmap]. unfold memory_usage_fields.
    by rewrite Htotal, Hmin, Hmax. }
  rewrite fmap_cons. cbn [foldl]. apply IH.
  - unfold cadvisor_totals_step, totals_step, total_min_max; cbn.
    by rewrite Htotal.
  - unfold cadvisor_totals_step, totals_step, total_min_max; cbn.
    by rewrite Hmin.
  - unfold cadvisor_totals_step, totals_step, total_min_max; cbn.
    by rewrite Hmax.
Qed.

Lemma cadvisor_records_docker_view (container_name : string)
  (value : Cadvisor.Entry) :
  cadvisor_records (F:=F) epoch_seconds container_name value
  = container_records epoch_seconds container_name (filter_value value).
Proof.
  unfold filter_value. destruct value as [als [|first rest]].
  { reflexivity. }
  cbn [Cadvisor.aliases Cadvisor.stats].
  destruct (epoch_seconds (Cadvisor.timestamp first)) as [ts|e] eqn:Hts.
  2: { unfold cadvisor_records, container_records, stats_subscript.
       cbn [Cadvisor.stats stats subscript]. simpl. by rewrite Hts. }
  destruct (last (first :: rest)) as [last_stat|] eqn:Hlast.
  2: { by apply last_None in Hlast. }
  rewrite (container_records_eq epoch_seconds container_name als
             (docker_view <$> first :: rest) (docker_view first)
             (docker_view last_stat) ts).
  2: { by rewrite fmap_cons. }
  2: { by rewrite fmap_last, Hlast. }
  2: { exact Hts. }
  unfold cadvisor_records. cbn [Cadvisor.stats].
  rewrite (subscript_head (first :: rest) first eq_refl).
  cbn [mbind result_bind rbind]. rewrite Hts.
  cbn [mbind result_bind rbind].
  rewrite (subscript_last _ _ Hlast). cbn [mbind result_bind rbind].
  by rewrite (cadvisor_memory_totals (first :: rest) initial_totals
                initial_totals).
Qed.

Lemma cadvisor_matching_alias_docker (match_container_name : option Matcher)
  (value : Cadvisor.Entry) (names : list string) :
  Forall (λ a, str_mem "/" a = false) names →
  cadvisor_matching_alias match_container_name value names
  = matching_alias match_container_name (filter_value value) names.
Proof.
  induction 1 as [|a names Ha Hnames IH]; [done|].
  cbn [cadvisor_matching_alias matching_alias].
  by rewrite (remove_from_without_slash a Ha), IH.
Qed.

(** The cadvisor path computes for a container the records the
    docker-stats path computes from the same samples (read under the key
    names of cadvisor), and raises the same exception when it raises.
    The two loops over the containers agree as well when no alias
    contains a slash: the cadvisor loop passes an alias to the filter,
    and files under it, as it is, where the docker-stats loop removes
    the slashes first. *)
Lemma cadvisor_aggregation_as_docker :
  (∀ container_name value,
      cadvisor_records (F:=F) epoch_seconds container_name value
      = container_records epoch_seconds container_name (filter_value value))
  ∧ (∀ match_container_name items payload,
        Forall (λ kv : string * Cadvisor.Entry,
                  Forall (λ a, str_mem "/" a = false) (Cadvisor.aliases kv.2))
          items →
        cadvisor_aggregate_loop (F:=F) epoch_seconds match_container_name
          items payload
        = aggregate_loop epoch_seconds match_container_name
            (prod_map id filter_value <$> items) payload).
Proof.
  split; [apply cadvisor_records_docker_view|].
  intros match_container_name items payload Hall. revert payload.
  induction Hall as [|[key value] items Hvalue Hitems IH]; intros payload;
    [done|].
  rewrite fmap_cons. cbn [cadvisor_aggregate_loop aggregate_loop prod_map].
  cbn [fst snd] in *.
  assert (Hentry : cadvisor_aggregate_entry epoch_seconds match_container_name
                     value payload
                   = aggregate_entry epoch_seconds match_container_name
                       (filter_value value) payload).
  { unfold cadvisor_aggregate_entry, aggregate_entry.
    rewrite (cadvisor_matching_alias_docker _ _ _ Hvalue).
    change (aliases (filter_value value)) with (Cadvisor.aliases value).
    destruct (matching_alias match_container_name (filter_value value)
                (Cadvisor.aliases value)) as [[name|]|e]; [|done|done].
    cbn [mbind result_bind rbind].
    by rewrite cadvisor_records_docker_view. }
  rewrite Hentry.
  destruct (aggregate_entry epoch_seconds match_container_name
              (filter_value value) payload) as [payload1|e]; [|done].
  cbn [mbind result_bind rbind]. apply IH.
Qed.

Lemma total_cpu_loop_empty_series (items : list (string * Cadvisor.Entry))
  (total_cpu : Z) (key : string) (value : Cadvisor.Entry) :
  (key, value) ∈ items →
  Cadvisor.stats value = [] →
  total_cpu_loop items total_cpu = Raise (IndexError "list index out of range").
Proof.
  intros Hin Hempty. revert total_cpu.
  induction items as [|[k v] items IH]; intros total_cpu.
  { by apply elem_of_nil in Hin. }
  cbn [total_cpu_loop]. apply elem_of_cons in Hin as [[= <- <-]|Hin].
  { by rewrite Hempty. }
  destruct (Cadvisor.stats v) as [|first rest] eqn:Hstats; [done|].
  destruct (last (first :: rest)) as [last_stat|] eqn:Hlast.
  2: { by apply last_None in Hlast. }
  pose proof (subscript_last _ _ Hlast) as Hsub.
  replace (Z.of_nat (length (first :: rest)) - 1)
    with (Z.of_nat (length (first :: rest)) + -1) in Hsub by lia.
  assert (Hneg : subscript (first :: rest) (-1) = Ok last_stat).
  { unfold subscript in *. cbn [Z.ltb Z.compare] in *.
    destruct (Z.of_nat (length (first :: rest)) + -1 <? 0) eqn:Hlt.
    - apply Z.ltb_lt in Hlt. cbn [length] in Hlt. lia.
    - by rewrite Hlt in Hsub. }
  rewrite Hneg. cbn [mbind result_bind rbind].
  rewrite (subscript_head (first :: rest) first eq_refl).
  cbn [mbind result_bind rbind]. by apply IH.
Qed.

(** A cadvisor cycle posts nothing when the request to cadvisor fails,
    and also when cadvisor reports one container with an empty series:
    the loop that adds up [total_cpu] reads the first and the last
    sample of every container before any filter is asked, so a container
    the filter would leave out stops the cycle too. *)
Lemma cadvisor_cycle_needs_every_series
  (match_container_name : option Matcher) (endpoint cadvisor_base : string) :
  (∀ e,
      http_get_json (cadvisor_base ++ "/docker") = Raise e →
      get_cadvisor_metrics epoch_seconds http_post http_get_json
        match_container_name endpoint cadvisor_base
      = {| posted := []; outcome := Raise e |})
  ∧ (∀ r key value,
        http_get_json (cadvisor_base ++ "/docker") = Ok r →
        r !! key = Some value →
        Cadvisor.stats value = [] →
        get_cadvisor_metrics epoch_seconds http_post http_get_json
          match_container_name endpoint cadvisor_base
        = {| posted := [];
             outcome := Raise (IndexError "list index out of range") |}).
Proof.
  unfold get_cadvisor_metrics. split.
  - by intros e ->.
  - intros r key value -> Hlookup Hempty. cbn [mbind result_bind rbind].
    rewrite (total_cpu_loop_empty_series (map_to_list r) 0 key value);
      [done | by apply elem_of_map_to_list | done].
Qed.
End CadvisorSource.

(** The container without samples has the alias [sender], which the
    filter rejects; the cycle still posts nothing, where the same answer
    without that container is posted. *)
Lemma cadvisor_cycle_needs_every_series_witness :
  get_cadvisor_metrics epoch_fixture post_fixture cadvisor_two
    (Some match_all_but_sender) collector_url cadvisor_url
  = {| posted := [];
       outcome := Raise (IndexError "list index out of range") |}
  ∧ ∃ payload,
      get_cadvisor_metrics epoch_fixture post_fixture cadvisor_one
        (Some match_all_but_sender) collector_url cadvisor_url
      = {| posted := [(collector_url, payload)]; outcome := Ok () |}
      ∧ is_Some (payload !! "web").
Proof.
  split.
  - refine (proj2 (cadvisor_cycle_needs_every_series epoch_fixture post_fixture
                     cadvisor_two (Some match_all_but_sender) collector_url
                     cadvisor_url)
              _ "/docker/bbb" cadvisor_new eq_refl _ eq_refl).
    by vm_compute.
  - eexists. split; [vm_compute; reflexivity | vm_compute; eauto].
Defined.

Lemma cadvisor_aggregation_as_docker_witness :
  cadvisor_aggregate_loop (F:=float) epoch_fixture (Some match_all)
    [("/docker/aaa", cadvisor_web)] ∅
  = aggregate_loop epoch_fixture (Some match_all)
      [("/docker/aaa", filter_value cadvisor_web)] ∅.
Proof.
  refine (proj2 (cadvisor_aggregation_as_docker (F:=float) epoch_fixture)
            (Some match_all) [("/docker/aaa", cadvisor_web)] ∅ _).
  repeat constructor.
Defined.

(** * A store write that is refused *)

Section RefusedWrite.
Context {V S : Type}.
Variable write_points : S → list (Metric V) → result S.

Lemma store_run_failure (client : S) (batches : list (list (Metric V)))
  (n : nat) (client' : S) (e : exn) :
  store_run write_points client batches = (n, client', Raise e) →
  ∃ i batch,
    n = Datatypes.S i
    ∧ batches !! i = Some batch
    ∧ store_run write_points client (take i batches) = (i, client', Ok ())
    ∧ write_points client' batch = Raise e.
Proof.
  revert client n. induction batches as [|b bs IH]; intros client n; [done|].
  cbn [store_run].
  destruct (write_points client b) as [client1|e1] eqn:Hwrite.
  - destruct (store_run write_points client1 bs) as [[m c] r] eqn:Hrun.
    intros [= <- <- ->].
    destruct (IH _ _ Hrun) as (i & batch & -> & Hlookup & Htake & Hrefused).
    exists (Datatypes.S i), batch. repeat split; [done| |done].
    cbn [take store_run]. by rewrite Hwrite, Htake.
  - intros [= <- <- <-]. exists 0%nat, b. by repeat split.
Qed.

(** When the store refuses the batch of a container, the writer stops
    there and nothing is undone: the batches of the containers before it
    were written and stay written, the refused batch is the last one
    handed to the store, the records of the containers up to and
    including the refused one carry the tag, the containers after it are
    as they were, the exception is logged and the value returned is
    [ignore_fail]. *)
Lemma writer_failure_prefix (entry : gmap string (list (Metric V)))
  (remote_ip : string) (influx_client : S) (ignore_fail : bool) (e : exn) :
  first_failure write_points influx_client
    (tagged remote_ip <$> map_to_list entry) = Some e →
  ∃ before kv after client',
    map_to_list entry = before ++ kv :: after
    ∧ store_run write_points influx_client (tagged remote_ip <$> before)
      = (length before, client', Ok ())
    ∧ write_points client' (tagged remote_ip kv) = Raise e
    ∧ _get_metadata_default write_points entry remote_ip influx_client
        ignore_fail
      = {| final := {| w_entry := tag_entry remote_ip (before ++ [kv]) entry;
                       w_store := client';
                       w_issued := tagged remote_ip <$> before ++ [kv] |};
           logged := [e];
           returned := Ok ignore_fail |}
    ∧ (∀ k recs,
          (k, recs) ∈ before ++ [kv] →
          tag_entry remote_ip (before ++ [kv]) entry !! k
          = Some (set_remote_ip remote_ip <$> recs))
    ∧ (∀ k recs,
          (k, recs) ∈ after →
          tag_entry remote_ip (before ++ [kv]) entry !! k = Some recs).
Proof.
  intros Hfail. rewrite get_metadata_default_run. cbv zeta.
  unfold first_failure in Hfail.
  destruct (store_run write_points influx_client
              (tagged remote_ip <$> map_to_list entry))
    as [[n client'] r] eqn:Hrun.
  destruct r as [?|e']; [done|]. injection Hfail as ->.
  destruct (store_run_failure _ _ _ _ _ Hrun)
    as (i & batch & -> & Hlookup & Htake & Hrefused).
  rewrite list_lookup_fmap in Hlookup.
  destruct (map_to_list entry !! i) as [kv|] eqn:Hkv; [|done].
  injection Hlookup as <-.
  pose proof (take_drop_middle _ _ _ Hkv) as Hsplit.
  pose proof (lookup_lt_Some _ _ _ Hkv) as Hlt.
  assert (Hlen : length (take i (map_to_list entry)) = i)
    by (rewrite length_take; lia).
  assert (HtakeS : take (Datatypes.S i) (map_to_list entry)
                   = take i (map_to_list entry) ++ [kv])
    by (by apply take_S_r).
  pose proof (NoDup_fst_map_to_list entry) as Hnodup.
  rewrite <- Hsplit in Hnodup. rewrite fmap_app, fmap_cons in Hnodup.
  apply NoDup_app in Hnodup as (Hnd_before & Hdisjoint & Hnd_rest).
  apply NoDup_cons in Hnd_rest as [Hkv_after Hnd_after].
  exists (take i (map_to_list entry)), kv,
         (drop (Datatypes.S i) (map_to_list entry)), client'.
  split; [done|]. split; [by rewrite Hlen, fmap_take|].
  split; [done|]. split; [|split].
  - cbn [fst snd]. by rewrite <- fmap_take, HtakeS.
  - intros k recs Hin. apply tag_entry_lookup_done; [|done].
    rewrite fmap_app. apply NoDup_app. split; [done|]. split.
    + intros x Hx Hx'. apply list_elem_of_singleton in Hx'. subst x.
      apply (Hdisjoint _ Hx). apply elem_of_cons. by left.
    + apply NoDup_singleton.
  - intros k recs Hin.
    assert (Hentry : entry !! k = Some recs).
    { apply elem_of_map_to_list. rewrite <- Hsplit.
      apply elem_of_app. right. apply elem_of_cons. by right. }
    rewrite tag_entry_lookup_other; [done|].
    assert (Hk : k ∈ (drop (Datatypes.S i) (map_to_list entry)).*1).
    { apply list_elem_of_fmap. by exists (k, recs). }
    rewrite fmap_app. intros Hin'. apply elem_of_app in Hin' as [Hb|Hkv'].
    + apply (Hdisjoint _ Hb). apply elem_of_cons. by right.
    + apply list_elem_of_singleton in Hkv'. cbn in Hkv'. by subst k.
Qed.
End RefusedWrite.

(** The writer on the payload of [c1] (three records) and [c2] (one
    record) with a store that refuses a batch of more than one point. *)
Lemma writer_failure_prefix_witness :
  ∃ before kv after client',
    map_to_list c1_c2_entry = before ++ kv :: after
    ∧ store_run small_batch_store [] (tagged "10.0.0.5" <$> before)
      = (length before, client', Ok ())
    ∧ small_batch_store client' (tagged "10.0.0.5" kv)
      = Raise (InfluxDBClientError "partial write: field type conflict")
    ∧ _get_metadata_default small_batch_store c1_c2_entry "10.0.0.5" [] false
      = {| final := {| w_entry := tag_entry "10.0.0.5" (before ++ [kv]) c1_c2_entry;
                       w_store := client';
                       w_issued := tagged "10.0.0.5" <$> before ++ [kv] |};
           logged := [InfluxDBClientError "partial write: field type conflict"];
           returned := Ok false |}
    ∧ (∀ k recs,
          (k, recs) ∈ before ++ [kv] →
          tag_entry "10.0.0.5" (before ++ [kv]) c1_c2_entry !! k
          = Some (set_remote_ip "10.0.0.5" <$> recs))
    ∧ (∀ k recs,
          (k, recs) ∈ after →
          tag_entry "10.0.0.5" (before ++ [kv]) c1_c2_entry !! k = Some recs).
Proof.
  apply (writer_failure_prefix small_batch_store c1_c2_entry "10.0.0.5" []
           false (InfluxDBClientError "partial write: field type conflict")).
  vm_compute. reflexivity.
Defined.

(** * The endpoint and its handler processes *)

(** Whatever the request is, [on_post] leaves the store as it is, and it
    starts a handler process exactly when it answers: the answer and the
    new process come together, an exception comes with no new process.
    A body that does not decode is not answered with [400]: the
    decoder's exception leaves [on_post] as it is, nothing is logged and
    nothing is started. *)
Lemma on_post_started_iff_answered {J S : Type}
  (json_loads : string → result J)
  (srv : Server (J:=J) (S:=S)) (req : Request) (resp : Response) :
  store (on_post json_loads srv req resp).1 = store srv
  ∧ ((∃ resp', (on_post json_loads srv req resp).2 = Ok resp')
     ↔ ∃ entry,
         json_loads (stream req) = Ok entry
         ∧ stream req ≠ ""
         ∧ processes (on_post json_loads srv req resp).1
           = processes srv ++ [(entry, REMOTE_ADDR req)])
  ∧ (∀ e, (on_post json_loads srv req resp).2 = Raise e →
          processes (on_post json_loads srv req resp).1 = processes srv)
  ∧ (∀ e, stream req ≠ "" →
          json_loads (stream req) = Raise e →
          on_post json_loads srv req resp = (srv, Raise e)).
Proof.
  unfold on_post. destruct (String.eqb_spec (stream req) "") as [Hempty|Hbody].
  - cbn [fst snd store processes]. split; [done|]. split; [|split].
    + split; [by intros [? [=]] | by intros (? & _ & ? & _)].
    + done.
    + done.
  - destruct (json_loads (stream req)) as [entry|e] eqn:Hjson;
      cbn [fst snd store processes].
    + split; [done|]. split; [|split].
      * split; [intros _; by exists entry | by eexists].
      * by intros e [=].
      * by intros e _ [=].
    + split; [done|]. split; [|split].
      * split; [by intros [? [=]] | by intros (? & [=] & _)].
      * done.
      * by intros e' _ [= <-].
Qed.
